(** * Keyword scoring and CSV report of the OCR batch script (src/index.ts)

    A shallow embedding of [index.ts]: the keyword matcher [checkKeywords],
    the CSV serializer [convertToCsv] and the driver [processImages].

    Conventions of the embedding.
    - A JavaScript string is a [string]: a sequence of code units, each
      modelled by an [ascii] character; nothing below depends on how many
      code units there are.
    - [String.prototype.toLowerCase] and [path.extname] belong to the
      platform, not to the script: they are section variables, so every
      result holds for whatever they compute.  [asciiLower] and
      [entryExtname] are instances used to run the definitions.
    - A JavaScript [Map] keeps its keys in insertion order and [set] on a
      key already present overwrites the value in place: it is an
      association list with exactly that [set].
    - Counts are natural numbers.  The average is kept twice: the driver
      prints the exact quotient [averageMatchPercentage], and
      [averageMatchPercentage64] is the double the script holds.
    - The file system, the OCR engine and the console are explicit: the
      directory listing, the recognition of a path and the write of the
      output file are oracles that may throw, and a [World] holds the
      console lines printed and the files written so far. *)

From Stdlib Require Import String Ascii List Bool Arith Lia QArith Qabs.
From Stdlib Require PrimFloat SpecFloat FloatOps.
Import ListNotations.

Local Close Scope Q_scope.
Local Open Scope list_scope.
Local Open Scope string_scope.

(* ------------------------------------------------------------------ *)
(** ** JavaScript strings *)

Module JsString.

(** [s.startsWith(sub)]: the candidate comparison of StringIndexOf at
    one position. *)
Fixpoint startsWith (s sub : string) {struct sub} : bool :=
  match sub with
  | EmptyString => true
  | String c sub' =>
      match s with
      | EmptyString => false
      | String d s' => if Ascii.eqb d c then startsWith s' sub' else false
      end
  end.

(** [s.includes(sub)]: StringIndexOf from position 0 finds a position.
    The empty search string is found at position 0 of every string. *)
Fixpoint includes (s sub : string) {struct s} : bool :=
  if startsWith s sub then true
  else match s with
       | EmptyString => false
       | String _ s' => includes s' sub
       end.

(** [list.join(sep)] *)
Fixpoint join (sep : string) (l : list string) : string :=
  match l with
  | [] => ""
  | [x] => x
  | x :: l' => x ++ sep ++ join sep l'
  end.

(** [s.split(sep)] for a one-character separator: never empty, and the
    pieces are the maximal runs without the separator. *)
Fixpoint split (sep : ascii) (s : string) : list string :=
  match s with
  | EmptyString => [""]
  | String c s' =>
      if Ascii.eqb c sep then "" :: split sep s'
      else match split sep s' with
           | [] => [String c ""]
           | p :: ps => String c p :: ps
           end
  end.

(** [s.endsWith(String.fromCharCode(c))] *)
Fixpoint endsWithChar (c : ascii) (s : string) : bool :=
  match s with
  | EmptyString => false
  | String d EmptyString => Ascii.eqb d c
  | String _ s' => endsWithChar c s'
  end.

(** Whether the character occurs in the string. *)
Fixpoint hasChar (c : ascii) (s : string) : bool :=
  match s with
  | EmptyString => false
  | String d s' => Ascii.eqb d c || hasChar c s'
  end.

(** How often the character occurs: a string with [n] separators
    splits into [n + 1] fields. *)
Fixpoint countChar (c : ascii) (s : string) : nat :=
  match s with
  | EmptyString => 0
  | String d s' => (if Ascii.eqb d c then 1 else 0) + countChar c s'
  end.

(** The spec's "contiguous substring". *)
Definition Substring (sub s : string) : Prop :=
  exists pre post, s = pre ++ sub ++ post.

(** An instance of [toLowerCase] on the ASCII letters. *)
Definition lowerChar (c : ascii) : ascii :=
  let n := nat_of_ascii c in
  if ((65 <=? n)%nat && (n <=? 90)%nat)%bool then ascii_of_nat (n + 32) else c.

Fixpoint asciiLower (s : string) : string :=
  match s with
  | EmptyString => EmptyString
  | String c s' => String (lowerChar c) (asciiLower s')
  end.

End JsString.

(* ------------------------------------------------------------------ *)
(** ** JavaScript [Map<string, V>] *)

Module JsMap.

Definition t (V : Type) : Type := list (string * V).

Definition empty {V} : t V := [].

(** [m.set(k, v)]: overwrite in place, or append a new entry. *)
Fixpoint set {V} (k : string) (v : V) (m : t V) : t V :=
  match m with
  | [] => [(k, v)]
  | (k', v') :: m' =>
      if String.eqb k' k then (k', v) :: m' else (k', v') :: set k v m'
  end.

(** [m.get(k)]: [None] is [undefined]. *)
Fixpoint get {V} (k : string) (m : t V) : option V :=
  match m with
  | [] => None
  | (k', v') :: m' => if String.eqb k' k then Some v' else get k m'
  end.

Definition keys {V} (m : t V) : list string := map fst m.
Definition values {V} (m : t V) : list V := map snd m.

End JsMap.

(** The keyword list with every repeated keyword dropped after its first
    occurrence. *)
Fixpoint dedup (l : list string) : list string :=
  match l with
  | [] => []
  | x :: l' => x :: filter (fun y => negb (String.eqb y x)) (dedup l')
  end.

(** One step of that deduplication, as the loop of [checkKeywords] takes
    it on the keys: a keyword already present keeps its place. *)
Definition add_key (acc : list string) (x : string) : list string :=
  if existsb (String.eqb x) acc then acc else (acc ++ [x])%list.

Definition absent (acc : list string) (y : string) : bool :=
  negb (existsb (String.eqb y) acc).

(* ------------------------------------------------------------------ *)
(** ** The script *)

Definition IMAGE_DIR : string := "./images".
Definition OUTPUT_FILE : string := "results.csv".
Definition SUPPORTED_EXTENSIONS : list string :=
  [".jpg"; ".jpeg"; ".png"; ".tiff"; ".tif"].

(** The keyword list as the script ships it. *)
Definition TARGET_KEYWORDS_shipped : list string := ["Selamat"].

Record ImageResult : Type := mkImageResult {
  fileName : string;
  keywordStatus : JsMap.t bool
}.

Section Matcher.

Variable toLowerCase : string -> string.
Variable TARGET_KEYWORDS : list string.

(** [checkKeywords], lines 42-51. *)
Definition checkKeywords (text : string) : JsMap.t bool :=
  let lowerText := toLowerCase text in
  fold_left
    (fun statusMap keyword =>
       let found := JsString.includes lowerText (toLowerCase keyword) in
       JsMap.set keyword found statusMap)
    TARGET_KEYWORDS JsMap.empty.

(** The status [checkKeywords] computes for one keyword, line 47. *)
Definition found (text keyword : string) : bool :=
  JsString.includes (toLowerCase text) (toLowerCase keyword).

(** [Array.from(keywordStatus.values()).filter((v) => v).length],
    lines 120-122. *)
Definition foundCount (keywordStatus : JsMap.t bool) : nat :=
  List.length (filter (fun v => v) (JsMap.values keywordStatus)).

End Matcher.

Definition lf : ascii := ascii_of_nat 10.
Definition comma : ascii := ascii_of_nat 44.
Definition newline : string := String lf "".

Section Serializer.

Variable TARGET_KEYWORDS : list string.

(** The callback of [results.map], lines 63-72. *)
Definition csvRow (result : ImageResult) : string :=
  fold_left
    (fun row keyword =>
       let status :=
         match JsMap.get keyword (keywordStatus result) with
         | Some b => b || false
         | None => false
         end in
       let statusText := if status then "found" else "not found" in
       row ++ "," ++ statusText)
    TARGET_KEYWORDS (fileName result).

(** The cell of one keyword, lines 67-68. *)
Definition statusText (result : ImageResult) (keyword : string) : string :=
  match JsMap.get keyword (keywordStatus result) with
  | Some true => "found"
  | _ => "not found"
  end.

(** The header line, without its newline. *)
Definition headerLine : string := "Case," ++ JsString.join "," TARGET_KEYWORDS.

(** The number of comma-separated fields of a line. *)
Definition fields (line : string) : nat :=
  List.length (JsString.split comma line).

(** [convertToCsv], lines 56-75. *)
Definition convertToCsv (results : list ImageResult) : string :=
  let searchHeaders := JsString.join "," TARGET_KEYWORDS in
  let header := "Case," ++ searchHeaders ++ newline in
  let rows := map csvRow results in
  header ++ JsString.join newline rows.

End Serializer.

(* ------------------------------------------------------------------ *)
(** ** Effects: exceptions, console and file system *)

Record JsError : Type := mkError { message : string }.

(** A piece of a printed line: literal text, an interpolated count, or
    a number printed with [toFixed(2)]. *)
Inductive Chunk : Type :=
| Text (s : string)
| Num (n : nat)
| Fixed2 (q : Q).

(** [console.log(msg)] and [console.error(msg, detail)]. *)
Inductive Line : Type :=
| LogLine (msg : list Chunk)
| ErrorLine (msg : list Chunk) (detail : string).

(** What a run can change: the lines printed so far, and the files on
    disk, a map from path to content. *)
Record World : Type := mkWorld {
  console : list Line;
  disk : JsMap.t string
}.

Inductive Completion (A : Type) : Type :=
| Normal (a : A)
| Throw (e : JsError).
Arguments Normal {A} a.
Arguments Throw {A} e.

Definition M (A : Type) : Type := World -> Completion A * World.

Definition ret {A} (a : A) : M A := fun w => (Normal a, w).

Definition bind {A B} (m : M A) (k : A -> M B) : M B :=
  fun w =>
    match m w with
    | (Normal a, w') => k a w'
    | (Throw e, w') => (Throw e, w')
    end.

Definition complete {A} (c : Completion A) : M A := fun w => (c, w).

(** [try { body } catch (e) { handler(e) }] *)
Definition try_catch {A} (body : M A) (handler : JsError -> M A) : M A :=
  fun w =>
    match body w with
    | (Normal a, w') => (Normal a, w')
    | (Throw e, w') => handler e w'
    end.

Definition console_log (msg : list Chunk) : M unit :=
  fun w => (Normal tt, mkWorld (console w ++ [LogLine msg]) (disk w)).

Definition console_error (msg : list Chunk) (detail : string) : M unit :=
  fun w => (Normal tt, mkWorld (console w ++ [ErrorLine msg detail]) (disk w)).

Notation "x <- m ;; k" := (bind m (fun x => k))
  (at level 61, m at next level, right associativity).
Notation "m ;;; k" := (bind m (fun _ => k))
  (at level 61, right associativity).

(** [for (const x of l) { s = body(s, x) }] *)
Fixpoint forOf {A S} (body : S -> A -> M S) (l : list A) (s : S) : M S :=
  match l with
  | [] => ret s
  | x :: l' => s' <- body s x ;; forOf body l' s'
  end.

Record Config : Type := mkConfig { lang : string; oem : nat; psm : nat }.

Definition config : Config := mkConfig "eng" 1 3.

(** The variables [allImageResults] and [totalSuccessfulMatches] the loop
    updates. *)
Record Tally : Type := mkTally {
  allImageResults : list ImageResult;
  totalSuccessfulMatches : nat
}.

Definition Qnat (n : nat) : Q := inject_Z (Z.of_nat n).

Section Orchestrator.

Variable toLowerCase : string -> string.
Variable extname : string -> string.
Variable path_join : string -> string -> string.
Variable TARGET_KEYWORDS : list string.

(** [fs.readdirSync(dir)]: the entries, or the error thrown. *)
Variable readdirSync : string -> Completion (list string).
(** [tesseract.recognize(path, config)]: the text, or the rejection. *)
Variable recognize : string -> Config -> Completion string.
(** [fs.writeFileSync(file, data)]: the error thrown, if any; without
    one the file is created or overwritten.  (What a failed write
    leaves of that file is not modelled.) *)
Variable writeFileSync_error : string -> string -> option JsError.

Definition writeFileSync (file data : string) : M unit :=
  fun w =>
    match writeFileSync_error file data with
    | Some e => (Throw e, w)
    | None => (Normal tt, mkWorld (console w) (JsMap.set file data (disk w)))
    end.

(** [isSupportedImage], lines 34-37. *)
Definition isSupportedImage (filename : string) : bool :=
  let ext := toLowerCase (extname filename) in
  existsb (String.eqb ext) SUPPORTED_EXTENSIONS.

(** Lines 134-139.  The counts are exact; the quotient is taken in the
    rationals, where the script divides doubles: the rounding of that
    division is left out of the model. *)
Definition averageMatchPercentage (matches totalPossibleChecks : nat) : Q :=
  if (0 <? totalPossibleChecks)%nat
  then (Qnat matches / Qnat totalPossibleChecks * 100)%Q
  else 0%Q.

(** The body of the [for] loop, lines 105-131. *)
Definition processFile (numKeywords : nat) (tally : Tally) (file : string)
  : M Tally :=
  let imagePath := path_join IMAGE_DIR file in
  try_catch
    (text <- complete (recognize imagePath config) ;;
     let keywordStatus := checkKeywords toLowerCase TARGET_KEYWORDS text in
     let pushed :=
       (allImageResults tally ++ [mkImageResult file keywordStatus])%list in
     let found := foundCount keywordStatus in
     let total := totalSuccessfulMatches tally + found in
     console_log [Text ("Processed: " ++ file ++ " ("); Num found;
                  Text " matches out of "; Num numKeywords;
                  Text " keywords)"] ;;;
     ret (mkTally pushed total))
    (fun error =>
       console_error [Text ("Error processing " ++ file ++ ":")]
                     (message error) ;;;
       ret tally).

Definition bar : string := "========================================".

(** [processImages], lines 80-160. *)
Definition processImages : M unit :=
  console_log [Text ("Starting OCR process for images in: " ++ IMAGE_DIR)] ;;;
  try_catch
    (files <- complete (readdirSync IMAGE_DIR) ;;
     let imageFiles := filter isSupportedImage files in
     if (List.length imageFiles =? 0)%nat then
       console_log
         [Text (newline ++ "No supported images ("
                ++ JsString.join ", " SUPPORTED_EXTENSIONS
                ++ ") found in " ++ IMAGE_DIR ++ ".")]
     else
       let numImages := List.length imageFiles in
       let numKeywords := List.length TARGET_KEYWORDS in
       let totalPossibleChecks := numImages * numKeywords in
       console_log [Text "Found "; Num numImages;
                    Text " image(s) to process."] ;;;
       console_log [Text "----------------------------------------"] ;;;
       tally <- forOf (processFile numKeywords) imageFiles (mkTally [] 0) ;;
       let average :=
         averageMatchPercentage (totalSuccessfulMatches tally)
                                totalPossibleChecks in
       let csvData := convertToCsv TARGET_KEYWORDS (allImageResults tally) in
       writeFileSync OUTPUT_FILE csvData ;;;
       console_log [Text (newline ++ bar)] ;;;
       console_log [Text "OCR Processing Summary"] ;;;
       console_log [Text bar] ;;;
       console_log [Text "Total Images Processed: "; Num numImages] ;;;
       console_log [Text "Total Keywords Checked: "; Num totalPossibleChecks] ;;;
       console_log [Text "Total Successful Matches: ";
                    Num (totalSuccessfulMatches tally)] ;;;
       console_log [Text "Average Match Percentage: **"; Fixed2 average;
                    Text "%**"] ;;;
       console_log [Text ("Results written to: **" ++ OUTPUT_FILE ++ "**")] ;;;
       console_log [Text bar])
    (fun err => console_error [Text (newline ++ "Fatal Error:")] (message err)).

(** *** The loop, file by file

    Closed forms of what the loop leaves behind; [forOf_processFile]
    below proves that the loop computes them. *)

Definition outcome (file : string) : Completion string :=
  recognize (path_join IMAGE_DIR file) config.

Definition succeeded (file : string) : bool :=
  match outcome file with Normal _ => true | Throw _ => false end.

Definition resultOf (file : string) : list ImageResult :=
  match outcome file with
  | Normal text =>
      [mkImageResult file (checkKeywords toLowerCase TARGET_KEYWORDS text)]
  | Throw _ => []
  end.

Definition resultsOf (files : list string) : list ImageResult :=
  flat_map resultOf files.

Definition matchesOf (results : list ImageResult) : nat :=
  list_sum (map (fun r => foundCount (keywordStatus r)) results).

Definition lineOf (numKeywords : nat) (file : string) : Line :=
  match outcome file with
  | Normal text =>
      LogLine [Text ("Processed: " ++ file ++ " (");
               Num (foundCount
                      (checkKeywords toLowerCase TARGET_KEYWORDS text));
               Text " matches out of "; Num numKeywords;
               Text " keywords)"]
  | Throw error =>
      ErrorLine [Text ("Error processing " ++ file ++ ":")] (message error)
  end.

(** The lines of the summary block, lines 146-156. *)
Definition summaryLines (numImages totalPossibleChecks matches : nat)
  : list Line :=
  [LogLine [Text (newline ++ bar)];
   LogLine [Text "OCR Processing Summary"];
   LogLine [Text bar];
   LogLine [Text "Total Images Processed: "; Num numImages];
   LogLine [Text "Total Keywords Checked: "; Num totalPossibleChecks];
   LogLine [Text "Total Successful Matches: "; Num matches];
   LogLine [Text "Average Match Percentage: **";
            Fixed2 (averageMatchPercentage matches totalPossibleChecks);
            Text "%**"];
   LogLine [Text ("Results written to: **" ++ OUTPUT_FILE ++ "**")];
   LogLine [Text bar]].

Definition startLine : Line :=
  LogLine [Text ("Starting OCR process for images in: " ++ IMAGE_DIR)].

Definition noImagesLine : Line :=
  LogLine [Text (newline ++ "No supported images ("
                 ++ JsString.join ", " SUPPORTED_EXTENSIONS
                 ++ ") found in " ++ IMAGE_DIR ++ ".")].

Definition foundLines (numImages : nat) : list Line :=
  [LogLine [Text "Found "; Num numImages; Text " image(s) to process."];
   LogLine [Text "----------------------------------------"]].

Definition fatalLine (err : JsError) : Line :=
  ErrorLine [Text (newline ++ "Fatal Error:")] (message err).

End Orchestrator.

(** The suffix of a name from its last dot on, if it has a dot. *)
Fixpoint lastDotSuffix (s : string) : option string :=
  match s with
  | EmptyString => None
  | String c s' =>
      match lastDotSuffix s' with
      | Some e => Some e
      | None => if Ascii.eqb c "."%char then Some s else None
      end
  end.

(** An instance of [path.extname] for directory entries (names without a
    path separator): the suffix from the last dot, empty when there is no
    dot, when the only dot leads the name, and for the entry [..]. *)
Definition entryExtname (s : string) : string :=
  match s with
  | EmptyString => ""
  | String c s' =>
      if String.eqb s ".." then ""
      else match lastDotSuffix s' with
           | Some e => e
           | None => ""
           end
  end.

(** An instance of [path.join] for the directory [./images] and an entry
    name. *)
Definition entryJoin (dir file : string) : string :=
  (if String.eqb dir "./images" then "images" else dir) ++ "/" ++ file.

Definition world0 : World := mkWorld [] [].

(** *** A sample run

    Four directory entries, three of them images; the engine reads the
    first, rejects the second and finds no text in the third. *)
Definition sample_listing : list string :=
  ["a.PNG"; "notes.txt"; "b.jpg"; "c.tif"].

Definition sample_readdirSync (dir : string) : Completion (list string) :=
  if String.eqb dir "./images" then Normal sample_listing
  else Throw (mkError "ENOENT: no such file or directory").

Definition sample_recognize (path : string) (_ : Config) : Completion string :=
  if String.eqb path "images/a.PNG" then Normal "SELAMAT datang"
  else if String.eqb path "images/b.jpg" then Throw (mkError "Command failed")
  else Normal "".

Definition sample_write_ok (file data : string) : option JsError := None.

(** A directory without a supported image. *)
Definition sample_no_images (dir : string) : Completion (list string) :=
  Normal ["notes.txt"; ".png"; "archive.zip"].

(* ------------------------------------------------------------------ *)
(** ** Closed forms and samples for the further properties *)

(** The cells of a row: [,found] or [,not found] for each keyword in
    turn. *)
Fixpoint cellsOf (status : string -> bool) (keywords : list string) : string :=
  match keywords with
  | [] => ""
  | k :: ks =>
      "," ++ (if status k then "found" else "not found") ++ cellsOf status ks
  end.

(** The status [convertToCsv] reads off a result's map, line 67: a
    missing key counts as [false]. *)
Definition statusIn (m : JsMap.t bool) (keyword : string) : bool :=
  match JsMap.get keyword m with
  | Some b => b
  | None => false
  end.

(** The text the engine read from a file ([""] when it rejected it). *)
Definition textOf (path_join : string -> string -> string)
           (recognize : string -> Config -> Completion string)
           (file : string) : string :=
  match outcome path_join recognize file with
  | Normal text => text
  | Throw _ => ""
  end.

(** A directory that cannot be listed. *)
Definition sample_listing_fails (dir : string) : Completion (list string) :=
  Throw (mkError "ENOENT: no such file or directory, scandir './images'").

(** An output file that cannot be written. *)
Definition sample_write_fails (file data : string) : option JsError :=
  Some (mkError "EACCES: permission denied, open 'results.csv'").

(** An engine that rejects every image. *)
Definition sample_reject_all (path : string) (_ : Config) : Completion string :=
  Throw (mkError "Command failed").

(** An engine that answers as [sample_recognize] on the images and would
    also read the notes. *)
Definition sample_recognize_notes (path : string) (c : Config)
  : Completion string :=
  if String.eqb path "images/notes.txt" then Normal "Selamat pagi"
  else sample_recognize path c.

(* ------------------------------------------------------------------ *)
(** ** The average as the script computes it *)












(* ------------------------------------------------------------------ *)
(** ** Facts about strings *)

Module StringFacts.
Import JsString.

Lemma append_empty_r (s : string) : s ++ "" = s.
Proof. induction s as [|c s IH]; simpl; [reflexivity | now rewrite IH]. Qed.

Lemma append_assoc (a b c : string) : (a ++ b) ++ c = a ++ (b ++ c).
Proof. induction a as [|x a IH]; simpl; [reflexivity | now rewrite IH]. Qed.

Lemma startsWith_prefix (s sub : string) :
  startsWith s sub = true <-> exists post, s = sub ++ post.
Proof.
  revert s; induction sub as [|c sub IH]; intros s; simpl.
  - split; [intros _; now exists s | reflexivity].
  - destruct s as [|d s].
    + split; [discriminate | intros [post H]; discriminate].
    + destruct (Ascii.eqb_spec d c) as [->|Hne].
      * rewrite IH. split; intros [post H]; exists post.
        -- now rewrite H.
        -- now injection H.
      * split; [discriminate|].
        intros [post H]. injection H as Hd _. contradiction.
Qed.

Lemma includes_Substring (s sub : string) :
  includes s sub = true <-> Substring sub s.
Proof.
  unfold Substring. induction s as [|d s IH].
  - simpl. destruct (startsWith "" sub) eqn:E.
    + apply startsWith_prefix in E as [post E].
      split; [intros _; now exists "", post | reflexivity].
    + split; [discriminate|].
      intros [pre [post H]]. destruct pre; [|discriminate].
      simpl in H. assert (startsWith "" sub = true) as E'
        by (apply startsWith_prefix; now exists post).
      congruence.
  - cbn [includes]. destruct (startsWith (String d s) sub) eqn:E.
    + apply startsWith_prefix in E as [post E].
      split; [intros _; now exists "", post | reflexivity].
    + rewrite IH. split.
      * intros [pre [post H]]. exists (String d pre), post.
        simpl. now rewrite H.
      * intros [pre [post H]]. destruct pre as [|x pre].
        -- simpl in H.
           assert (startsWith (String d s) sub = true) as E'
             by (apply startsWith_prefix; now exists post).
           congruence.
        -- simpl in H. injection H as _ H. now exists pre, post.
Qed.

Lemma includes_empty (s : string) : includes s "" = true.
Proof. destruct s; reflexivity. Qed.

End StringFacts.

(* ------------------------------------------------------------------ *)
(** ** Facts about [Map] and the deduplicated keyword list *)

Module MapFacts.

Lemma get_set_same {V} (k : string) (v : V) (m : JsMap.t V) :
  JsMap.get k (JsMap.set k v m) = Some v.
Proof.
  induction m as [|[k' v'] m IH]; simpl.
  - now rewrite String.eqb_refl.
  - destruct (String.eqb k' k) eqn:E; simpl; rewrite E; [reflexivity | exact IH].
Qed.

Lemma set_set {V} (k : string) (v1 v2 : V) (m : JsMap.t V) :
  JsMap.set k v2 (JsMap.set k v1 m) = JsMap.set k v2 m.
Proof.
  induction m as [|[k' v'] m IH]; simpl.
  - now rewrite String.eqb_refl.
  - destruct (String.eqb k' k) eqn:E; simpl; rewrite E; [reflexivity | now rewrite IH].
Qed.

Lemma keys_set_set {V} (k : string) (v1 v2 : V) (m : JsMap.t V) :
  JsMap.keys (JsMap.set k v2 (JsMap.set k v1 m)) = JsMap.keys (JsMap.set k v1 m).
Proof.
  induction m as [|[k' v'] m IH]; simpl.
  - now rewrite String.eqb_refl.
  - destruct (String.eqb k' k) eqn:E; simpl; rewrite E; simpl;
      [reflexivity | now f_equal].
Qed.

(** Looking a key up in a map built from a key list. *)
Lemma get_map {V} (f : string -> V) (k : string) (ks : list string) :
  JsMap.get k (map (fun x => (x, f x)) ks) =
  if existsb (String.eqb k) ks then Some (f k) else None.
Proof.
  induction ks as [|a ks IH]; simpl; [reflexivity|].
  rewrite (String.eqb_sym k a).
  destruct (String.eqb_spec a k) as [->|Hne]; simpl; [reflexivity | exact IH].
Qed.

End MapFacts.

Module DedupFacts.

Lemma filter_filter {A} (p q : A -> bool) (l : list A) :
  filter p (filter q l) = filter (fun y => p y && q y) l.
Proof.
  induction l as [|a l IH]; simpl; [reflexivity|].
  destruct (q a) eqn:Eq; simpl.
  - rewrite andb_true_r. destruct (p a); now rewrite IH.
  - now rewrite andb_false_r.
Qed.

Lemma fold_add_key (l acc : list string) :
  fold_left add_key l acc = (acc ++ filter (absent acc) (dedup l))%list.
Proof.
  revert acc; induction l as [|x l IH]; intros acc; simpl.
  - now rewrite app_nil_r.
  - unfold add_key at 2.
    destruct (existsb (String.eqb x) acc) eqn:E; rewrite IH;
      unfold absent at 2; rewrite ?E; simpl.
    + f_equal. rewrite filter_filter. apply filter_ext. intros y.
      unfold absent. destruct (String.eqb_spec y x) as [->|Hne]; simpl.
      * now rewrite E.
      * now rewrite andb_true_r.
    + rewrite <- app_assoc. simpl. do 2 f_equal.
      rewrite filter_filter. apply filter_ext. intros y.
      unfold absent. rewrite existsb_app. simpl.
      rewrite orb_false_r, negb_orb. reflexivity.
Qed.

Lemma dedup_fold (l : list string) : fold_left add_key l [] = dedup l.
Proof.
  rewrite fold_add_key. simpl. unfold absent. simpl.
  induction (dedup l) as [|a d IH]; simpl; [reflexivity | now rewrite IH].
Qed.

Lemma In_dedup (l : list string) (k : string) : In k (dedup l) <-> In k l.
Proof.
  induction l as [|x l IH]; simpl; [tauto|].
  rewrite filter_In, IH.
  destruct (String.eqb_spec k x) as [->|Hne]; simpl.
  - split; [intros [H|[H _]]; auto | auto].
  - split.
    + intros [H|[H _]]; auto.
    + intros [H|H]; [auto | right; split; [exact H | reflexivity]].
Qed.

Lemma NoDup_filter {A} (p : A -> bool) (l : list A) :
  NoDup l -> NoDup (filter p l).
Proof.
  induction 1 as [|a l Hin Hnd IH]; simpl; [constructor|].
  destruct (p a); [|exact IH].
  constructor; [|exact IH].
  rewrite filter_In. tauto.
Qed.

Lemma NoDup_dedup (l : list string) : NoDup (dedup l).
Proof.
  induction l as [|x l IH]; simpl; constructor.
  - rewrite filter_In, String.eqb_refl. simpl. intros [_ H]; discriminate.
  - now apply NoDup_filter.
Qed.

Lemma dedup_NoDup (l : list string) : NoDup l -> dedup l = l.
Proof.
  induction 1 as [|a l Hin Hnd IH]; simpl; [reflexivity|].
  rewrite IH. f_equal.
  clear IH Hnd. induction l as [|b l IH]; simpl; [reflexivity|].
  destruct (String.eqb_spec b a) as [->|Hne]; simpl.
  - exfalso. apply Hin. now left.
  - f_equal. apply IH. intros H. apply Hin. now right.
Qed.

Lemma existsb_eqb_In (k : string) (l : list string) :
  existsb (String.eqb k) l = true <-> In k l.
Proof.
  rewrite existsb_exists. split.
  - intros [x [Hx E]]. apply String.eqb_eq in E. now subst.
  - intros H. exists k. split; [exact H | apply String.eqb_refl].
Qed.

End DedupFacts.

Section MatcherFacts.

Variable toLowerCase : string -> string.
Variable TARGET_KEYWORDS : list string.

Lemma set_found (text k : string) (acc : list string) :
  JsMap.set k (found toLowerCase text k) (map (fun x => (x, found toLowerCase text x)) acc) =
  map (fun x => (x, found toLowerCase text x)) (add_key acc k).
Proof.
  unfold add_key.
  induction acc as [|a acc IH]; simpl; [reflexivity|].
  rewrite (String.eqb_sym k a).
  destruct (String.eqb_spec a k) as [->|Hne]; simpl; [reflexivity|].
  rewrite IH. destruct (existsb (String.eqb k) acc); reflexivity.
Qed.

(** The matcher in closed form: one entry per distinct keyword, in the
    order of first occurrence. *)
Lemma checkKeywords_dedup (text : string) :
  checkKeywords toLowerCase TARGET_KEYWORDS text =
  map (fun k => (k, found toLowerCase text k)) (dedup TARGET_KEYWORDS).
Proof.
  unfold checkKeywords. cbv zeta.
  rewrite <- DedupFacts.dedup_fold.
  change (@JsMap.empty bool) with (map (fun k => (k, found toLowerCase text k)) []).
  generalize (@nil string) as acc.
  induction TARGET_KEYWORDS as [|k l IH]; intros acc; simpl; [reflexivity|].
  fold (found toLowerCase text k). rewrite set_found. apply IH.
Qed.

Lemma get_checkKeywords (text k : string) :
  JsMap.get k (checkKeywords toLowerCase TARGET_KEYWORDS text) =
  if existsb (String.eqb k) TARGET_KEYWORDS then Some (found toLowerCase text k) else None.
Proof.
  rewrite checkKeywords_dedup, MapFacts.get_map.
  destruct (existsb (String.eqb k) (dedup TARGET_KEYWORDS)) eqn:E1;
    destruct (existsb (String.eqb k) TARGET_KEYWORDS) eqn:E2; try reflexivity.
  - apply -> DedupFacts.existsb_eqb_In in E1.
    apply -> DedupFacts.In_dedup in E1.
    apply <- DedupFacts.existsb_eqb_In in E1. congruence.
  - apply -> DedupFacts.existsb_eqb_In in E2.
    apply <- DedupFacts.In_dedup in E2.
    apply <- DedupFacts.existsb_eqb_In in E2. congruence.
Qed.

End MatcherFacts.

(* ------------------------------------------------------------------ *)
(** ** The driver in closed form *)

Section OrchestratorFacts.

Variable toLowerCase : string -> string.
Variable extname : string -> string.
Variable path_join : string -> string -> string.
Variable TARGET_KEYWORDS : list string.
Variable readdirSync : string -> Completion (list string).
Variable recognize : string -> Config -> Completion string.
Variable writeFileSync_error : string -> string -> option JsError.

#[local] Abbreviation processFile' :=
  (processFile toLowerCase path_join TARGET_KEYWORDS recognize).
#[local] Abbreviation resultOf' :=
  (resultOf toLowerCase path_join TARGET_KEYWORDS recognize).
#[local] Abbreviation resultsOf' :=
  (resultsOf toLowerCase path_join TARGET_KEYWORDS recognize).
#[local] Abbreviation lineOf' :=
  (lineOf toLowerCase path_join TARGET_KEYWORDS recognize).
#[local] Abbreviation outcome' := (outcome path_join recognize).
#[local] Abbreviation succeeded' := (succeeded path_join recognize).
#[local] Abbreviation isSupportedImage' :=
  (isSupportedImage toLowerCase extname).
#[local] Abbreviation processImages' :=
  (processImages toLowerCase extname path_join TARGET_KEYWORDS
                 readdirSync recognize writeFileSync_error).

Lemma matchesOf_app (r1 r2 : list ImageResult) :
  matchesOf (r1 ++ r2) = matchesOf r1 + matchesOf r2.
Proof. unfold matchesOf. now rewrite map_app, list_sum_app. Qed.

(** One turn of the loop never throws: a rejection is caught and
    logged, a recognition is scored and recorded. *)
Lemma processFile_step (numKeywords : nat) (tally : Tally) (file : string)
      (w : World) :
  processFile' numKeywords tally file w =
  (Normal (mkTally (allImageResults tally ++ resultOf' file)
                   (totalSuccessfulMatches tally + matchesOf (resultOf' file))),
   mkWorld (console w ++ [lineOf' numKeywords file]) (disk w)).
Proof.
  unfold processFile, resultOf, lineOf, outcome,
    try_catch, bind, complete, console_log, console_error, ret.
  destruct (recognize (path_join IMAGE_DIR file) config) as [text|e]; simpl.
  - unfold matchesOf. simpl. now rewrite Nat.add_0_r.
  - rewrite app_nil_r, Nat.add_0_r. now destruct tally.
Qed.

Lemma forOf_processFile (numKeywords : nat) (files : list string)
      (tally : Tally) (w : World) :
  forOf (processFile' numKeywords) files tally w =
  (Normal (mkTally (allImageResults tally ++ resultsOf' files)
                   (totalSuccessfulMatches tally + matchesOf (resultsOf' files))),
   mkWorld (console w ++ map (lineOf' numKeywords) files) (disk w)).
Proof.
  revert tally w. induction files as [|file files IH]; intros tally w.
  - simpl. unfold ret, matchesOf. simpl.
    rewrite !app_nil_r, Nat.add_0_r. now destruct tally, w.
  - cbn [forOf]. unfold bind. rewrite processFile_step, IH. simpl.
    unfold resultsOf. simpl.
    rewrite matchesOf_app, <- !app_assoc, Nat.add_assoc. reflexivity.
Qed.

(** The three ways a run ends.  In each the call itself completes
    normally: the outer [catch] turns a thrown error into a line. *)
Lemma processImages_listing_fails (e : JsError) (w : World) :
  readdirSync IMAGE_DIR = Throw e ->
  processImages' w =
  (Normal tt, mkWorld (console w ++ [startLine; fatalLine e]) (disk w)).
Proof.
  intros H. unfold processImages, bind, try_catch, complete, console_log,
    console_error. simpl. rewrite H. simpl.
  rewrite <- app_assoc. reflexivity.
Qed.

Lemma processImages_no_images (files : list string) (w : World) :
  readdirSync IMAGE_DIR = Normal files ->
  filter isSupportedImage' files = [] ->
  processImages' w =
  (Normal tt, mkWorld (console w ++ [startLine; noImagesLine]) (disk w)).
Proof.
  intros H E. unfold processImages, bind, try_catch, complete, console_log.
  simpl. rewrite H, E. simpl.
  rewrite <- app_assoc. reflexivity.
Qed.

Lemma processImages_batch (files : list string) (w : World) :
  readdirSync IMAGE_DIR = Normal files ->
  filter isSupportedImage' files <> [] ->
  let imageFiles := filter isSupportedImage' files in
  let numImages := List.length imageFiles in
  let numKeywords := List.length TARGET_KEYWORDS in
  let results := resultsOf' imageFiles in
  let csvData := convertToCsv TARGET_KEYWORDS results in
  let progress :=
    (console w ++ startLine :: foundLines numImages
       ++ map (lineOf' numKeywords) imageFiles)%list in
  processImages' w =
  match writeFileSync_error OUTPUT_FILE csvData with
  | None =>
      (Normal tt,
       mkWorld (progress ++ summaryLines numImages (numImages * numKeywords)
                                         (matchesOf results))
               (JsMap.set OUTPUT_FILE csvData (disk w)))
  | Some e => (Normal tt, mkWorld (progress ++ [fatalLine e]) (disk w))
  end.
Proof.
  intros H E. cbv zeta.
  unfold processImages. unfold bind at 1. unfold console_log at 1.
  unfold try_catch. unfold bind at 1. unfold complete. rewrite H.
  destruct (filter isSupportedImage' files) as [|f fs] eqn:Ef;
    [contradiction|].
  cbn [List.length Nat.eqb].
  unfold bind at 1. unfold console_log at 1.
  unfold bind at 1. unfold console_log at 1.
  unfold bind at 1. rewrite forOf_processFile.
  cbn [allImageResults totalSuccessfulMatches console disk app Nat.add].
  unfold bind at 1. unfold writeFileSync.
  destruct (writeFileSync_error OUTPUT_FILE _) as [e|].
  - unfold console_error. cbn [console disk].
    f_equal. f_equal. unfold foundLines.
    rewrite <- !app_assoc. reflexivity.
  - unfold bind, console_log. cbn [console disk].
    f_equal. f_equal. unfold foundLines, summaryLines.
    rewrite <- !app_assoc. reflexivity.
Qed.

End OrchestratorFacts.

(* ------------------------------------------------------------------ *)
(** ** Facts about splitting and joining *)

Module SplitFacts.
Import JsString StringFacts.

Lemma hasChar_app (c : ascii) (a b : string) :
  hasChar c (a ++ b) = hasChar c a || hasChar c b.
Proof.
  induction a as [|d a IH]; simpl; [reflexivity|].
  now rewrite IH, orb_assoc.
Qed.

Lemma countChar_app (c : ascii) (a b : string) :
  countChar c (a ++ b) = countChar c a + countChar c b.
Proof.
  induction a as [|d a IH]; simpl; [reflexivity|].
  rewrite IH. lia.
Qed.

Lemma countChar_absent (c : ascii) (s : string) :
  hasChar c s = false -> countChar c s = 0.
Proof.
  induction s as [|d s IH]; simpl; [reflexivity|].
  destruct (Ascii.eqb d c); simpl; [discriminate | exact IH].
Qed.

Lemma split_not_nil (c : ascii) (s : string) : split c s <> [].
Proof.
  induction s as [|d s IH]; simpl; [discriminate|].
  destruct (Ascii.eqb d c); [discriminate|].
  destruct (split c s); [contradiction | discriminate].
Qed.

Lemma length_split (c : ascii) (s : string) :
  List.length (split c s) = S (countChar c s).
Proof.
  induction s as [|d s IH]; simpl; [reflexivity|].
  destruct (Ascii.eqb d c); simpl.
  - now rewrite IH.
  - pose proof (split_not_nil c s) as Hne.
    destruct (split c s) as [|p ps]; [contradiction|].
    simpl in *. exact IH.
Qed.

Lemma split_absent (c : ascii) (s : string) :
  hasChar c s = false -> split c s = [s].
Proof.
  induction s as [|d s IH]; simpl; [reflexivity|].
  destruct (Ascii.eqb d c); simpl; [discriminate|].
  intros H. now rewrite (IH H).
Qed.

Lemma split_app_sep (c : ascii) (a b : string) :
  hasChar c a = false ->
  split c (a ++ String c b) = a :: split c b.
Proof.
  induction a as [|d a IH]; simpl.
  - intros _. now rewrite Ascii.eqb_refl.
  - destruct (Ascii.eqb d c); simpl; [discriminate|].
    intros H. now rewrite (IH H).
Qed.

Lemma join_cons (sep x : string) (l : list string) :
  l <> [] -> join sep (x :: l) = x ++ sep ++ join sep l.
Proof. destruct l; [contradiction | reflexivity]. Qed.

(** Splitting undoes joining when no piece holds the separator. *)
Lemma split_join (c : ascii) (l : list string) :
  l <> [] ->
  (forall x, In x l -> hasChar c x = false) ->
  split c (join (String c "") l) = l.
Proof.
  induction l as [|x l IH]; [contradiction|].
  intros _ H. destruct l as [|y l].
  - simpl. apply split_absent, H. now left.
  - rewrite join_cons by discriminate.
    change (String c "" ++ join (String c "") (y :: l))
      with (String c (join (String c "") (y :: l))).
    rewrite split_app_sep by (apply H; now left).
    f_equal. apply IH; [discriminate|].
    intros z Hz. apply H. now right.
Qed.

Lemma hasChar_join (c : ascii) (sep : string) (l : list string) :
  hasChar c sep = false ->
  (forall x, In x l -> hasChar c x = false) ->
  hasChar c (join sep l) = false.
Proof.
  intros Hs. induction l as [|x l IH]; intros H; [reflexivity|].
  destruct l as [|y l].
  - simpl. apply H. now left.
  - rewrite join_cons by discriminate.
    rewrite !hasChar_app, Hs, (H x) by now left.
    simpl. apply IH. intros z Hz. apply H. now right.
Qed.

Lemma countChar_join (c : ascii) (l : list string) :
  (forall x, In x l -> hasChar c x = false) ->
  countChar c (join (String c "") l) = pred (List.length l).
Proof.
  induction l as [|x l IH]; intros H; [reflexivity|].
  destruct l as [|y l].
  - simpl. apply countChar_absent, H. now left.
  - rewrite join_cons by discriminate.
    rewrite !countChar_app, (countChar_absent c x) by (apply H; now left).
    rewrite IH by (intros z Hz; apply H; now right).
    simpl. now rewrite Ascii.eqb_refl.
Qed.

(** The last piece of a join is its last element. *)
Lemma join_snoc (sep : string) (l : list string) (x : string) :
  exists pre, join sep (l ++ [x]) = pre ++ x.
Proof.
  induction l as [|y l [pre IH]].
  - now exists "".
  - exists (y ++ sep ++ pre). simpl app.
    rewrite join_cons by (destruct l; discriminate).
    now rewrite IH, !append_assoc.
Qed.

Lemma endsWithChar_app (c : ascii) (a b : string) :
  b <> "" -> endsWithChar c (a ++ b) = endsWithChar c b.
Proof.
  intros Hb. induction a as [|d a IH]; [reflexivity|].
  simpl. rewrite IH.
  destruct (a ++ b) eqn:E; [|reflexivity].
  destruct a; simpl in E; [contradiction | discriminate].
Qed.

End SplitFacts.

(* ------------------------------------------------------------------ *)
(** ** Facts about the serializer *)

Section SerializerFacts.
Import JsString StringFacts SplitFacts.

Variable TARGET_KEYWORDS : list string.

Lemma statusText_cases (r : ImageResult) (k : string) :
  statusText r k = "found" \/ statusText r k = "not found".
Proof.
  unfold statusText.
  destruct (JsMap.get k (keywordStatus r)) as [[|]|]; auto.
Qed.

(** A row is the file name followed by one [,cell] per keyword. *)
Lemma csvRow_fold (r : ImageResult) :
  csvRow TARGET_KEYWORDS r =
  fold_left (fun row k => row ++ "," ++ statusText r k)
            TARGET_KEYWORDS (fileName r).
Proof.
  unfold csvRow. generalize (fileName r) as row.
  induction TARGET_KEYWORDS as [|k l IH]; intros row; simpl; [reflexivity|].
  rewrite IH. do 2 f_equal. unfold statusText.
  destruct (JsMap.get k (keywordStatus r)) as [[|]|]; reflexivity.
Qed.

Lemma countChar_cells (c : ascii) (r : ImageResult) (l : list string)
      (row : string) :
  c = comma ->
  countChar c (fold_left (fun row k => row ++ "," ++ statusText r k) l row) =
  countChar c row + List.length l.
Proof.
  intros ->. revert row.
  induction l as [|k l IH]; intros row; simpl; [lia|].
  rewrite IH, !countChar_app.
  destruct (statusText_cases r k) as [-> | ->]; simpl; lia.
Qed.

Lemma hasChar_lf_cells (r : ImageResult) (l : list string) (row : string) :
  hasChar lf row = false ->
  hasChar lf (fold_left (fun row k => row ++ "," ++ statusText r k) l row)
  = false.
Proof.
  revert row. induction l as [|k l IH]; intros row H; simpl; [exact H|].
  apply IH. rewrite !hasChar_app, H.
  destruct (statusText_cases r k) as [-> | ->]; reflexivity.
Qed.

(** With at least one keyword a row ends in the letter of its last
    cell. *)
Lemma csvRow_tail (r : ImageResult) :
  TARGET_KEYWORDS <> [] ->
  exists pre cell,
    csvRow TARGET_KEYWORDS r = pre ++ cell /\
    (cell = "found" \/ cell = "not found").
Proof.
  intros Hne. rewrite csvRow_fold.
  destruct (exists_last Hne) as [l [k ->]].
  rewrite fold_left_app. simpl.
  exists (fold_left (fun row k => row ++ "," ++ statusText r k) l (fileName r)
          ++ ","), (statusText r k).
  split; [now rewrite append_assoc | apply statusText_cases].
Qed.

Lemma fields_csvRow (r : ImageResult) :
  hasChar comma (fileName r) = false ->
  fields (csvRow TARGET_KEYWORDS r) = 1 + List.length TARGET_KEYWORDS.
Proof.
  intros H. unfold fields.
  rewrite length_split, csvRow_fold, countChar_cells by reflexivity.
  now rewrite (countChar_absent _ _ H).
Qed.

Lemma fields_headerLine :
  TARGET_KEYWORDS <> [] ->
  (forall k, In k TARGET_KEYWORDS -> hasChar comma k = false) ->
  fields (headerLine TARGET_KEYWORDS) = 1 + List.length TARGET_KEYWORDS.
Proof.
  intros Hne H. unfold fields, headerLine.
  rewrite length_split, countChar_app.
  change "," with (String comma "").
  rewrite countChar_join by exact H.
  destruct TARGET_KEYWORDS; [contradiction | reflexivity].
Qed.

Lemma convertToCsv_header (results : list ImageResult) :
  convertToCsv TARGET_KEYWORDS results =
  headerLine TARGET_KEYWORDS
  ++ String lf (join newline (map (csvRow TARGET_KEYWORDS) results)).
Proof.
  unfold convertToCsv, headerLine, newline. cbv zeta.
  now rewrite !append_assoc.
Qed.

Lemma hasChar_lf_headerLine :
  (forall k, In k TARGET_KEYWORDS -> hasChar lf k = false) ->
  hasChar lf (headerLine TARGET_KEYWORDS) = false.
Proof.
  intros H. unfold headerLine. rewrite hasChar_app. simpl.
  now apply hasChar_join.
Qed.

(** The lines of the document: the header, then one per result. *)
Lemma lines_convertToCsv (results : list ImageResult) :
  (forall k, In k TARGET_KEYWORDS -> hasChar lf k = false) ->
  (forall r, In r results -> hasChar lf (fileName r) = false) ->
  split lf (convertToCsv TARGET_KEYWORDS results) =
  headerLine TARGET_KEYWORDS ::
    match results with
    | [] => [""]
    | _ => map (csvRow TARGET_KEYWORDS) results
    end.
Proof.
  intros Hk Hr. rewrite convertToCsv_header.
  rewrite split_app_sep by now apply hasChar_lf_headerLine.
  f_equal. destruct results as [|r rs]; [reflexivity|].
  unfold newline. apply split_join; [discriminate|].
  intros x Hx. apply in_map_iff in Hx as [r' [<- Hin]].
  rewrite csvRow_fold. apply hasChar_lf_cells, Hr, Hin.
Qed.

End SerializerFacts.

(* ------------------------------------------------------------------ *)
(** ** The keyword matcher: claims C2, C8, C10 *)

Section MatcherClaims.

Variable toLowerCase : string -> string.
Variable TARGET_KEYWORDS : list string.

(** C2.  For every text [T] and every configured keyword [K], the
    matcher maps [K] to [true] if and only if the lower-cased [K] is a
    contiguous substring of the lower-cased [T]. *)
Theorem checkKeywords_found_iff_substring (T K : string) :
  In K TARGET_KEYWORDS ->
  (JsMap.get K (checkKeywords toLowerCase TARGET_KEYWORDS T) = Some true <->
   JsString.Substring (toLowerCase K) (toLowerCase T)).
Proof.
  intros HK. rewrite get_checkKeywords.
  apply DedupFacts.existsb_eqb_In in HK. rewrite HK.
  unfold found. rewrite <- StringFacts.includes_Substring.
  split; [now intros [= ->] | now intros ->].
Qed.

(** C8.  For every text the keys of the returned map are exactly the
    deduplicated keyword list, in the configured order; a repeated
    keyword has one entry, and a later [set] of a key overwrites the
    value without moving or adding a key. *)
Theorem checkKeywords_keys_dedup (text : string) :
  JsMap.keys (checkKeywords toLowerCase TARGET_KEYWORDS text)
    = dedup TARGET_KEYWORDS
  /\ JsMap.keys (checkKeywords toLowerCase TARGET_KEYWORDS "")
    = dedup TARGET_KEYWORDS
  /\ NoDup (JsMap.keys (checkKeywords toLowerCase TARGET_KEYWORDS text))
  /\ (forall k, In k (JsMap.keys (checkKeywords toLowerCase TARGET_KEYWORDS text))
                <-> In k TARGET_KEYWORDS)
  /\ (NoDup TARGET_KEYWORDS -> dedup TARGET_KEYWORDS = TARGET_KEYWORDS)
  /\ (forall (m : JsMap.t bool) k v1 v2,
         JsMap.get k (JsMap.set k v2 (JsMap.set k v1 m)) = Some v2
         /\ JsMap.keys (JsMap.set k v2 (JsMap.set k v1 m))
            = JsMap.keys (JsMap.set k v1 m)).
Proof.
  assert (forall t, JsMap.keys (checkKeywords toLowerCase TARGET_KEYWORDS t)
                    = dedup TARGET_KEYWORDS) as Hkeys.
  { intros t. rewrite checkKeywords_dedup. unfold JsMap.keys.
    rewrite map_map. simpl. apply map_id. }
  repeat split.
  - apply Hkeys.
  - apply Hkeys.
  - rewrite Hkeys. apply DedupFacts.NoDup_dedup.
  - rewrite Hkeys. apply DedupFacts.In_dedup.
  - rewrite Hkeys. apply DedupFacts.In_dedup.
  - apply DedupFacts.dedup_NoDup.
  - apply MapFacts.get_set_same.
  - apply MapFacts.keys_set_set.
Qed.

Lemma foundCount_positive (text k : string) :
  In k TARGET_KEYWORDS ->
  found toLowerCase text k = true ->
  1 <= foundCount (checkKeywords toLowerCase TARGET_KEYWORDS text).
Proof.
  intros Hin Hf. rewrite checkKeywords_dedup.
  apply DedupFacts.In_dedup in Hin.
  unfold foundCount, JsMap.values. rewrite map_map. simpl.
  induction (dedup TARGET_KEYWORDS) as [|a d IH]; [contradiction|].
  simpl. destruct Hin as [-> | Hin].
  - rewrite Hf. simpl. lia.
  - specialize (IH Hin). destruct (found toLowerCase text a); simpl; lia.
Qed.

End MatcherClaims.

(** The shipped keyword is found in a text that spells it in capitals. *)
Lemma checkKeywords_found_iff_substring_witness :
  In "Selamat" TARGET_KEYWORDS_shipped /\
  (JsMap.get "Selamat"
     (checkKeywords JsString.asciiLower TARGET_KEYWORDS_shipped "SELAMAT datang")
   = Some true <->
   JsString.Substring (JsString.asciiLower "Selamat")
                      (JsString.asciiLower "SELAMAT datang")).
Proof.
  split.
  - left; reflexivity.
  - apply (checkKeywords_found_iff_substring JsString.asciiLower
             TARGET_KEYWORDS_shipped "SELAMAT datang" "Selamat").
    left; reflexivity.
Defined.

(* ------------------------------------------------------------------ *)
(** ** The driver: claims C1, C3, C7, C10 *)

Section OrchestratorClaims.

Variable toLowerCase : string -> string.
Variable extname : string -> string.
Variable path_join : string -> string -> string.
Variable TARGET_KEYWORDS : list string.
Variable readdirSync : string -> Completion (list string).
Variable recognize : string -> Config -> Completion string.
Variable writeFileSync_error : string -> string -> option JsError.

#[local] Abbreviation processFile' :=
  (processFile toLowerCase path_join TARGET_KEYWORDS recognize).
#[local] Abbreviation resultOf' :=
  (resultOf toLowerCase path_join TARGET_KEYWORDS recognize).
#[local] Abbreviation resultsOf' :=
  (resultsOf toLowerCase path_join TARGET_KEYWORDS recognize).
#[local] Abbreviation lineOf' :=
  (lineOf toLowerCase path_join TARGET_KEYWORDS recognize).
#[local] Abbreviation outcome' := (outcome path_join recognize).
#[local] Abbreviation succeeded' := (succeeded path_join recognize).
#[local] Abbreviation isSupportedImage' :=
  (isSupportedImage toLowerCase extname).
#[local] Abbreviation processImages' :=
  (processImages toLowerCase extname path_join TARGET_KEYWORDS
                 readdirSync recognize writeFileSync_error).

Lemma fileName_resultsOf (files : list string) :
  map fileName (resultsOf' files) = filter succeeded' files.
Proof.
  unfold resultsOf, resultOf, succeeded.
  induction files as [|f files IH]; simpl; [reflexivity|].
  rewrite map_app, IH.
  destruct (outcome' f); reflexivity.
Qed.

Lemma length_resultsOf (files : list string) :
  List.length (resultsOf' files) <= List.length files.
Proof.
  rewrite <- (length_map fileName), fileName_resultsOf.
  apply filter_length_le.
Qed.

Lemma isSupportedImage_In (f : string) :
  isSupportedImage' f = true <->
  In (toLowerCase (extname f)) SUPPORTED_EXTENSIONS.
Proof.
  unfold isSupportedImage. cbv zeta.
  apply DedupFacts.existsb_eqb_In.
Qed.

Lemma keywordStatus_resultsOf (files : list string) (r : ImageResult) :
  In r (resultsOf' files) ->
  exists text,
    keywordStatus r = checkKeywords toLowerCase TARGET_KEYWORDS text.
Proof.
  unfold resultsOf. rewrite in_flat_map. intros [f [_ Hr]].
  unfold resultOf in Hr. destruct (outcome' f) as [text|e]; [|contradiction].
  destruct Hr as [<- | []]. now exists text.
Qed.

(** C1.  In every run of the loop a file the engine rejects gets its
    name and the error's message logged and leaves no result, and the
    loop goes on: every file has its line, the results are exactly
    those of the files that were read, in order, so there are at most
    as many results as image files; and a batch with image files
    completes and writes the report of these results whenever the write
    itself succeeds. *)
Theorem processImages_partial_failure (files : list string) (w : World) :
  readdirSync IMAGE_DIR = Normal files ->
  let imageFiles := filter isSupportedImage' files in
  let numKeywords := List.length TARGET_KEYWORDS in
  exists tally wl,
    forOf (processFile' numKeywords) imageFiles (mkTally [] 0) w
      = (Normal tally, wl)
    /\ console wl = (console w ++ map (lineOf' numKeywords) imageFiles)%list
    /\ (forall file e,
           In file imageFiles -> outcome' file = Throw e ->
           In (ErrorLine [Text ("Error processing " ++ file ++ ":")]
                         (message e)) (console wl)
           /\ ~ In file (map fileName (allImageResults tally)))
    /\ map fileName (allImageResults tally) = filter succeeded' imageFiles
    /\ List.length (allImageResults tally) <= List.length imageFiles
    /\ (imageFiles <> [] ->
        exists w',
          processImages' w = (Normal tt, w')
          /\ (writeFileSync_error
                OUTPUT_FILE
                (convertToCsv TARGET_KEYWORDS (allImageResults tally)) = None ->
              disk w' =
              JsMap.set OUTPUT_FILE
                        (convertToCsv TARGET_KEYWORDS (allImageResults tally))
                        (disk w)
              /\ JsMap.get OUTPUT_FILE (disk w') =
                 Some (convertToCsv TARGET_KEYWORDS
                                    (allImageResults tally)))).
Proof.
  intros Hdir imageFiles numKeywords.
  eexists. eexists. split; [apply forOf_processFile|].
  cbn [allImageResults totalSuccessfulMatches console disk app].
  split; [reflexivity|]. split; [|split; [|split]].
  - intros file e Hin He. split.
    + apply in_or_app. right. apply in_map_iff. exists file.
      split; [|exact Hin]. unfold lineOf. now rewrite He.
    + rewrite fileName_resultsOf, filter_In. unfold succeeded.
      rewrite He. intros [_ H]. discriminate.
  - apply fileName_resultsOf.
  - apply length_resultsOf.
  - intros Hne.
    pose proof (processImages_batch toLowerCase extname path_join
                  TARGET_KEYWORDS readdirSync recognize writeFileSync_error
                  files w Hdir Hne) as Hrun.
    cbv zeta in Hrun. fold imageFiles in Hrun.
    destruct (writeFileSync_error OUTPUT_FILE
                (convertToCsv TARGET_KEYWORDS (resultsOf' imageFiles)))
      as [e|] eqn:Ew.
    + eexists. split; [exact Hrun|]. intros H. discriminate.
    + eexists. split; [exact Hrun|]. intros _. cbn [disk].
      split; [reflexivity | apply MapFacts.get_set_same].
Qed.

(** C7.  When the listing holds no entry whose lower-cased extension is
    a supported one, the run prints its opening line and the
    no-images line, completes normally, writes no file and prints no
    error line. *)
Theorem processImages_no_supported_images (files : list string) (w : World) :
  readdirSync IMAGE_DIR = Normal files ->
  (forall f, In f files ->
             ~ In (toLowerCase (extname f)) SUPPORTED_EXTENSIONS) ->
  processImages' w =
    (Normal tt, mkWorld (console w ++ [startLine; noImagesLine]) (disk w))
  /\ disk (snd (processImages' w)) = disk w
  /\ (forall msg detail,
         In (ErrorLine msg detail) (console (snd (processImages' w))) ->
         In (ErrorLine msg detail) (console w)).
Proof.
  intros Hdir Hnone.
  assert (filter isSupportedImage' files = []) as Hf.
  { clear Hdir. induction files as [|f l IH]; [reflexivity|].
    simpl. destruct (isSupportedImage' f) eqn:E.
    - apply isSupportedImage_In in E. exfalso.
      apply (Hnone f); [now left | exact E].
    - apply IH. intros g Hg. apply Hnone. now right. }
  rewrite (processImages_no_images toLowerCase extname path_join
             TARGET_KEYWORDS readdirSync recognize writeFileSync_error
             files w Hdir Hf).
  cbn [snd console disk]. repeat split.
  intros msg detail Hin. apply in_app_or in Hin as [H|H]; [exact H|].
  simpl in H. destruct H as [H|[H|[]]]; discriminate.
Qed.

(** C10.  When the keyword list holds the empty string (and lower-casing
    the empty string gives the empty string), every text has it found,
    so every status map counts at least one match and the loop ends
    with at least as many matches as results. *)
Theorem empty_keyword_always_found :
  toLowerCase "" = "" ->
  In "" TARGET_KEYWORDS ->
  (forall text,
      JsMap.get "" (checkKeywords toLowerCase TARGET_KEYWORDS text) = Some true
      /\ 1 <= foundCount (checkKeywords toLowerCase TARGET_KEYWORDS text))
  /\ (forall numKeywords files w,
         exists tally wl,
           forOf (processFile' numKeywords) files (mkTally [] 0) w
             = (Normal tally, wl)
           /\ List.length (allImageResults tally)
              <= totalSuccessfulMatches tally).
Proof.
  intros Hlow Hin.
  assert (forall text, found toLowerCase text "" = true) as Hfound.
  { intros text. unfold found. rewrite Hlow.
    apply StringFacts.includes_empty. }
  assert (forall text,
             1 <= foundCount (checkKeywords toLowerCase TARGET_KEYWORDS text))
    as Hcount.
  { intros text. now apply foundCount_positive with (k := ""). }
  split.
  - intros text. split; [|apply Hcount].
    rewrite get_checkKeywords.
    apply DedupFacts.existsb_eqb_In in Hin. rewrite Hin.
    now rewrite Hfound.
  - intros numKeywords files w.
    eexists. eexists. split; [apply forOf_processFile|].
    cbn [allImageResults totalSuccessfulMatches app Nat.add].
    pose proof (keywordStatus_resultsOf files) as Hres.
    unfold matchesOf.
    induction (resultsOf' files) as [|r rs IH]; simpl; [lia|].
    destruct (Hres r (or_introl eq_refl)) as [text ->].
    specialize (Hcount text).
    assert (List.length rs
            <= list_sum (map (fun r => foundCount (keywordStatus r)) rs)).
    { apply IH. intros r' Hr'. apply Hres. now right. }
    lia.
Qed.

End OrchestratorClaims.

(** The sample run: [b.jpg] is rejected, logged and left out, and the two
    other images are reported. *)
Lemma processImages_partial_failure_witness :
  sample_readdirSync IMAGE_DIR = Normal sample_listing /\
  exists tally wl,
    forOf (processFile JsString.asciiLower entryJoin TARGET_KEYWORDS_shipped
                       sample_recognize 1)
          ["a.PNG"; "b.jpg"; "c.tif"] (mkTally [] 0) world0
      = (Normal tally, wl)
    /\ In (ErrorLine [Text "Error processing b.jpg:"] "Command failed")
          (console wl)
    /\ map fileName (allImageResults tally) = ["a.PNG"; "c.tif"]
    /\ List.length (allImageResults tally) <= 3.
Proof.
  split; [reflexivity|].
  destruct (processImages_partial_failure
              JsString.asciiLower entryExtname entryJoin TARGET_KEYWORDS_shipped
              sample_readdirSync sample_recognize sample_write_ok
              sample_listing world0 eq_refl)
    as (tally & wl & Hloop & _ & Hfail & Hnames & Hlen & _).
  exists tally, wl. split; [exact Hloop|]. split.
  - apply (Hfail "b.jpg" (mkError "Command failed")).
    + right; left; reflexivity.
    + reflexivity.
  - split; [exact Hnames | exact Hlen].
Defined.

(** A directory with notes, a dot file and an archive: nothing is
    written. *)
Lemma processImages_no_supported_images_witness :
  sample_no_images IMAGE_DIR = Normal ["notes.txt"; ".png"; "archive.zip"] /\
  processImages JsString.asciiLower entryExtname entryJoin
                TARGET_KEYWORDS_shipped sample_no_images sample_recognize
                sample_write_ok world0
  = (Normal tt, mkWorld [startLine; noImagesLine] []).
Proof.
  split; [reflexivity|].
  apply (processImages_no_supported_images
           JsString.asciiLower entryExtname entryJoin TARGET_KEYWORDS_shipped
           sample_no_images sample_recognize sample_write_ok
           ["notes.txt"; ".png"; "archive.zip"] world0 eq_refl).
  intros f Hf Hin.
  destruct Hf as [<-|[<-|[<-|[]]]]; vm_compute in Hin;
    repeat (destruct Hin as [Hin|Hin]; [discriminate|]); exact Hin.
Defined.

(** An empty keyword beside the shipped one. *)
Lemma empty_keyword_always_found_witness :
  JsString.asciiLower "" = "" /\ In "" ["Selamat"; ""] /\
  JsMap.get "" (checkKeywords JsString.asciiLower ["Selamat"; ""] "datang")
  = Some true.
Proof.
  split; [reflexivity|]. split; [right; left; reflexivity|].
  apply (empty_keyword_always_found
           JsString.asciiLower entryJoin ["Selamat"; ""] sample_recognize
           eq_refl (or_intror (or_introl eq_refl))).
Defined.

(* ------------------------------------------------------------------ *)
(** ** The serializer: claims C4, C5, C6, C9 *)

Section SerializerClaims.
Import JsString StringFacts SplitFacts.

(** C5.  With no results the document is the header line
    [Case,<joined keywords>] and its newline, nothing else; split at
    newlines it is that one line followed by the empty rest. *)
Theorem convertToCsv_empty_results (TARGET_KEYWORDS : list string) :
  convertToCsv TARGET_KEYWORDS []
    = "Case," ++ join "," TARGET_KEYWORDS ++ newline
  /\ ((forall k, In k TARGET_KEYWORDS -> hasChar lf k = false) ->
      split lf (convertToCsv TARGET_KEYWORDS [])
      = ["Case," ++ join "," TARGET_KEYWORDS; ""]).
Proof.
  split.
  - unfold convertToCsv. simpl. now rewrite append_empty_r.
  - intros H. rewrite (lines_convertToCsv TARGET_KEYWORDS []).
    + reflexivity.
    + exact H.
    + intros r [].
Qed.

(** C6 (the code differs).  With no keywords the header line the code
    writes is [Case,]: the comma of the template stays, so the line has
    two fields, the second empty. *)
Theorem convertToCsv_empty_keywords_header (results : list ImageResult) :
  hd "" (split lf (convertToCsv [] results)) = "Case,"
  /\ headerLine [] = "Case,"
  /\ fields (headerLine []) = 2.
Proof.
  split; [|split; reflexivity].
  rewrite convertToCsv_header.
  rewrite split_app_sep by reflexivity. reflexivity.
Qed.

(** C4 (the code differs).  With no keywords and one result the header
    line has two fields and the data row has one. *)
Theorem convertToCsv_empty_keywords_columns :
  let results :=
    [mkImageResult "scan.png" (checkKeywords asciiLower [] "Selamat")] in
  split lf (convertToCsv [] results) = ["Case,"; "scan.png"]
  /\ map fields (split lf (convertToCsv [] results)) = [2; 1].
Proof. split; reflexivity. Qed.

(** The part of C4 the code keeps: without commas and newlines in file
    names and keywords, the lines of the document are the header and
    the rows, every row has one field more than there are keywords, and
    so has the header as soon as there is a keyword. *)
Theorem convertToCsv_field_counts (TARGET_KEYWORDS : list string)
        (results : list ImageResult) :
  (forall k, In k TARGET_KEYWORDS ->
             hasChar comma k = false /\ hasChar lf k = false) ->
  (forall r, In r results ->
             hasChar comma (fileName r) = false
             /\ hasChar lf (fileName r) = false) ->
  results <> [] ->
  split lf (convertToCsv TARGET_KEYWORDS results)
    = headerLine TARGET_KEYWORDS :: map (csvRow TARGET_KEYWORDS) results
  /\ (forall r, In r results ->
                fields (csvRow TARGET_KEYWORDS r)
                = 1 + List.length TARGET_KEYWORDS)
  /\ (TARGET_KEYWORDS <> [] ->
      forall line,
        In line (split lf (convertToCsv TARGET_KEYWORDS results)) ->
        fields line = 1 + List.length TARGET_KEYWORDS).
Proof.
  intros Hk Hr Hne.
  assert (split lf (convertToCsv TARGET_KEYWORDS results)
          = headerLine TARGET_KEYWORDS
              :: map (csvRow TARGET_KEYWORDS) results) as Hlines.
  { rewrite lines_convertToCsv.
    - destruct results; [contradiction | reflexivity].
    - intros k Hin. apply Hk, Hin.
    - intros r Hin. apply Hr, Hin. }
  assert (forall r, In r results ->
                    fields (csvRow TARGET_KEYWORDS r)
                    = 1 + List.length TARGET_KEYWORDS) as Hrows.
  { intros r Hin. apply fields_csvRow, Hr, Hin. }
  split; [exact Hlines|]. split; [exact Hrows|].
  intros Hkw line Hin. rewrite Hlines in Hin. destruct Hin as [<-|Hin].
  - apply fields_headerLine; [exact Hkw|].
    intros k Hin. apply Hk, Hin.
  - apply in_map_iff in Hin as [r [<- Hin]]. now apply Hrows.
Qed.

Lemma csvRow_not_newline_ended (TARGET_KEYWORDS : list string)
      (r : ImageResult) :
  TARGET_KEYWORDS <> [] \/
  (fileName r <> "" /\ endsWithChar lf (fileName r) = false) ->
  csvRow TARGET_KEYWORDS r <> ""
  /\ endsWithChar lf (csvRow TARGET_KEYWORDS r) = false.
Proof.
  destruct TARGET_KEYWORDS as [|k l] eqn:E.
  - intros [H|H]; [contradiction | exact H].
  - intros _. rewrite <- E.
    destruct (csvRow_tail TARGET_KEYWORDS r) as [pre [cell [-> Hc]]];
      [rewrite E; discriminate|].
    assert (cell <> "") as Hcell by (destruct Hc as [-> | ->]; discriminate).
    split.
    + destruct pre; simpl; [exact Hcell | discriminate].
    + rewrite endsWithChar_app by exact Hcell.
      destruct Hc as [-> | ->]; reflexivity.
Qed.

(** Provided there is a keyword, or else the last result's file name
    is not empty and does not end in a newline, the document ends in a
    newline if and only if there is no result. *)
Lemma convertToCsv_trailing_newline (TARGET_KEYWORDS : list string)
        (results : list ImageResult) :
  TARGET_KEYWORDS <> [] \/
  (forall pre r, results = (pre ++ [r])%list ->
                 fileName r <> "" /\ endsWithChar lf (fileName r) = false) ->
  (endsWithChar lf (convertToCsv TARGET_KEYWORDS results) = true
   <-> results = []).
Proof.
  intros H. rewrite convertToCsv_header.
  destruct results as [|r0 rs] eqn:E.
  - cbn [map join]. rewrite endsWithChar_app by discriminate.
    split; reflexivity.
  - rewrite <- E.
    assert (results <> []) as Hne by (rewrite E; discriminate).
    destruct (exists_last Hne) as [pre [r Hr]].
    rewrite Hr, map_app. simpl map.
    destruct (join_snoc newline (map (csvRow TARGET_KEYWORDS) pre)
                        (csvRow TARGET_KEYWORDS r)) as [p ->].
    change (String lf (p ++ csvRow TARGET_KEYWORDS r))
      with (String lf p ++ csvRow TARGET_KEYWORDS r).
    rewrite <- append_assoc.
    destruct (csvRow_not_newline_ended TARGET_KEYWORDS r) as [Hrow Hend].
    { destruct H as [H|H]; [now left | right]. apply (H pre). congruence. }
    rewrite endsWithChar_app by exact Hrow. rewrite Hend.
    split; [discriminate|].
    intros Habs. destruct pre; discriminate.
Qed.

End SerializerClaims.

(** A listing of two scans under the shipped keyword. *)
Lemma convertToCsv_field_counts_witness :
  let results := [mkImageResult "a.png" [("Selamat", true)];
                  mkImageResult "b.png" [("Selamat", false)]] in
  JsString.split lf (convertToCsv TARGET_KEYWORDS_shipped results)
  = ["Case,Selamat"; "a.png,found"; "b.png,not found"]
  /\ fields "b.png,not found" = 2.
Proof.
  destruct (convertToCsv_field_counts
              TARGET_KEYWORDS_shipped
              [mkImageResult "a.png" [("Selamat", true)];
               mkImageResult "b.png" [("Selamat", false)]])
    as (Hlines & Hrows & _).
  - intros k [<-|[]]. split; reflexivity.
  - intros r [<-|[<-|[]]]; split; reflexivity.
  - discriminate.
  - split; [exact Hlines|].
    apply (Hrows (mkImageResult "b.png" [("Selamat", false)])).
    right; left; reflexivity.
Defined.

(* ------------------------------------------------------------------ *)
(** ** Further properties of the matcher and the serializer *)

Section RowFacts.
Import JsString StringFacts.

Variable TARGET_KEYWORDS : list string.

Lemma length_filter_le {A} (p : A -> bool) (l : list A) :
  List.length (filter p l) <= List.length l.
Proof.
  induction l as [|a l IH]; simpl; [lia|].
  destruct (p a); simpl; lia.
Qed.

Lemma length_dedup_le (l : list string) :
  List.length (dedup l) <= List.length l.
Proof.
  induction l as [|x l IH]; simpl; [lia|].
  pose proof (length_filter_le (fun y => negb (String.eqb y x)) (dedup l)).
  lia.
Qed.

Lemma cells_fold (status : string -> bool) (r : ImageResult)
      (l : list string) (row : string) :
  (forall k, In k l -> statusIn (keywordStatus r) k = status k) ->
  fold_left (fun row k => row ++ "," ++ statusText r k) l row
  = row ++ cellsOf status l.
Proof.
  revert row. induction l as [|k l IH]; intros row H; simpl.
  - now rewrite append_empty_r.
  - rewrite IH by (intros k' Hk'; apply H; now right).
    rewrite !append_assoc. do 2 f_equal.
    assert (statusIn (keywordStatus r) k = status k) as Hk
      by (apply H; now left).
    unfold statusIn in Hk. unfold statusText.
    destruct (JsMap.get k (keywordStatus r)) as [[|]|]; rewrite <- Hk;
      reflexivity.
Qed.

(** X2.  A row is the file name followed, for each keyword in turn
    (repeated keywords included), by [,found] when the result's map
    holds [true] for it and by [,not found] otherwise; a keyword the
    map lacks reads [not found]. *)
Theorem csvRow_cells (r : ImageResult) :
  csvRow TARGET_KEYWORDS r
  = fileName r ++ cellsOf (statusIn (keywordStatus r)) TARGET_KEYWORDS
  /\ (forall k, JsMap.get k (keywordStatus r) = None ->
                statusIn (keywordStatus r) k = false)
  /\ csvRow TARGET_KEYWORDS (mkImageResult (fileName r) [])
     = fileName r ++ cellsOf (fun _ => false) TARGET_KEYWORDS.
Proof.
  split; [|split].
  - rewrite csvRow_fold. now apply cells_fold.
  - intros k H. unfold statusIn. now rewrite H.
  - rewrite csvRow_fold. now apply cells_fold.
Qed.

Variable toLowerCase : string -> string.

Lemma countChar_cellsOf (status : string -> bool) (l : list string) :
  countChar comma (cellsOf status l) = List.length l.
Proof.
  induction l as [|k l IH]; simpl; [reflexivity|].
  rewrite SplitFacts.countChar_app, IH.
  destruct (status k); reflexivity.
Qed.

Lemma csvRow_found_cells (file text : string) :
  csvRow TARGET_KEYWORDS
         (mkImageResult file (checkKeywords toLowerCase TARGET_KEYWORDS text))
  = file ++ cellsOf (found toLowerCase text) TARGET_KEYWORDS.
Proof.
  rewrite csvRow_fold. apply cells_fold.
  intros k Hk. unfold statusIn. cbn [keywordStatus].
  rewrite get_checkKeywords.
  apply DedupFacts.existsb_eqb_In in Hk. now rewrite Hk.
Qed.

(** X3.  The row of a processed image: under each keyword, repeated or
    not, the cell reads [found] exactly when the lower-cased keyword
    occurs in the lower-cased text; so a keyword listed twice fills two
    columns although the status map holds it once. *)
Theorem csvRow_checkKeywords (file text : string) :
  csvRow TARGET_KEYWORDS
         (mkImageResult file (checkKeywords toLowerCase TARGET_KEYWORDS text))
  = file ++ cellsOf (found toLowerCase text) TARGET_KEYWORDS
  /\ fields (file ++ cellsOf (found toLowerCase text) TARGET_KEYWORDS)
     = fields file + List.length TARGET_KEYWORDS
  /\ List.length
       (JsMap.keys (checkKeywords toLowerCase TARGET_KEYWORDS text))
     <= List.length TARGET_KEYWORDS.
Proof.
  split; [apply csvRow_found_cells|]. split.
  - unfold fields. rewrite !SplitFacts.length_split.
    rewrite SplitFacts.countChar_app, countChar_cellsOf. lia.
  - rewrite checkKeywords_dedup. unfold JsMap.keys.
    rewrite !length_map. apply length_dedup_le.
Qed.

Lemma foundCount_checkKeywords (text : string) :
  foundCount (checkKeywords toLowerCase TARGET_KEYWORDS text)
  = List.length (filter (found toLowerCase text) (dedup TARGET_KEYWORDS)).
Proof.
  rewrite checkKeywords_dedup. unfold foundCount, JsMap.values.
  rewrite map_map. simpl.
  induction (dedup TARGET_KEYWORDS) as [|k d IH]; simpl; [reflexivity|].
  destruct (found toLowerCase text k); simpl; now rewrite IH.
Qed.

Lemma foundCount_le_dedup (text : string) :
  foundCount (checkKeywords toLowerCase TARGET_KEYWORDS text)
  <= List.length (dedup TARGET_KEYWORDS).
Proof. rewrite foundCount_checkKeywords. apply length_filter_le. Qed.

(** X4.  The match count of a text is the number of distinct keywords
    found in it: never more than the number of distinct keywords, nor
    than the number of keywords, and the whole of the distinct keywords
    only if each of them is found. *)
Theorem foundCount_bounds (text : string) :
  foundCount (checkKeywords toLowerCase TARGET_KEYWORDS text)
  = List.length (filter (found toLowerCase text) (dedup TARGET_KEYWORDS))
  /\ foundCount (checkKeywords toLowerCase TARGET_KEYWORDS text)
     <= List.length (dedup TARGET_KEYWORDS)
  /\ List.length (dedup TARGET_KEYWORDS) <= List.length TARGET_KEYWORDS
  /\ (foundCount (checkKeywords toLowerCase TARGET_KEYWORDS text)
      = List.length (dedup TARGET_KEYWORDS) ->
      forall k, In k TARGET_KEYWORDS -> found toLowerCase text k = true).
Proof.
  rewrite foundCount_checkKeywords.
  split; [reflexivity|]. split; [apply length_filter_le|].
  split; [apply length_dedup_le|].
  intros Hall k Hk. apply DedupFacts.In_dedup in Hk.
  apply filter_length_forallb in Hall.
  rewrite forallb_forall in Hall. now apply Hall.
Qed.

(** X5.  Matching is blind to case: two texts with the same lower-cased
    form get the same status map, and two configured keywords with the
    same lower-cased form get the same status. *)
Theorem checkKeywords_case_blind (t1 t2 k1 k2 : string) :
  toLowerCase t1 = toLowerCase t2 ->
  toLowerCase k1 = toLowerCase k2 ->
  In k1 TARGET_KEYWORDS -> In k2 TARGET_KEYWORDS ->
  checkKeywords toLowerCase TARGET_KEYWORDS t1
    = checkKeywords toLowerCase TARGET_KEYWORDS t2
  /\ JsMap.get k1 (checkKeywords toLowerCase TARGET_KEYWORDS t1)
     = JsMap.get k2 (checkKeywords toLowerCase TARGET_KEYWORDS t2).
Proof.
  intros Ht Hk H1 H2.
  assert (checkKeywords toLowerCase TARGET_KEYWORDS t1
          = checkKeywords toLowerCase TARGET_KEYWORDS t2) as E
    by (unfold checkKeywords; now rewrite Ht).
  split; [exact E|].
  rewrite !get_checkKeywords.
  apply DedupFacts.existsb_eqb_In in H1, H2. rewrite H1, H2.
  unfold found. now rewrite Ht, Hk.
Qed.

End RowFacts.

(** A text in capitals and one in small letters; the keyword in two
    spellings. *)
Lemma checkKeywords_case_blind_witness :
  JsMap.get "Selamat"
    (checkKeywords JsString.asciiLower ["Selamat"; "SELAMAT"] "SELAMAT DATANG")
  = JsMap.get "SELAMAT"
      (checkKeywords JsString.asciiLower ["Selamat"; "SELAMAT"] "selamat datang").
Proof.
  apply (checkKeywords_case_blind ["Selamat"; "SELAMAT"] JsString.asciiLower
           "SELAMAT DATANG" "selamat datang" "Selamat" "SELAMAT"
           eq_refl eq_refl).
  - left; reflexivity.
  - right; left; reflexivity.
Defined.

(* ------------------------------------------------------------------ *)
(** ** Further properties of the driver *)

Lemma get_set_other {V} (k k' : string) (v : V) (m : JsMap.t V) :
  k' <> k -> JsMap.get k' (JsMap.set k v m) = JsMap.get k' m.
Proof.
  intros Hne. induction m as [|[a b] m IH]; simpl.
  - destruct (String.eqb_spec k k') as [->|_]; [contradiction | reflexivity].
  - destruct (String.eqb_spec a k) as [->|Hak]; simpl.
    + destruct (String.eqb_spec k k') as [->|_]; [contradiction | reflexivity].
    + destruct (String.eqb a k'); [reflexivity | exact IH].
Qed.

Section OrchestratorExtras.

Variable toLowerCase : string -> string.
Variable extname : string -> string.
Variable path_join : string -> string -> string.
Variable TARGET_KEYWORDS : list string.
Variable readdirSync : string -> Completion (list string).
Variable recognize : string -> Config -> Completion string.
Variable writeFileSync_error : string -> string -> option JsError.

#[local] Abbreviation resultsOf' :=
  (resultsOf toLowerCase path_join TARGET_KEYWORDS recognize).
#[local] Abbreviation lineOf' :=
  (lineOf toLowerCase path_join TARGET_KEYWORDS recognize).
#[local] Abbreviation outcome' := (outcome path_join recognize).
#[local] Abbreviation succeeded' := (succeeded path_join recognize).
#[local] Abbreviation textOf' := (textOf path_join recognize).
#[local] Abbreviation isSupportedImage' :=
  (isSupportedImage toLowerCase extname).
#[local] Abbreviation processImages' :=
  (processImages toLowerCase extname path_join TARGET_KEYWORDS
                 readdirSync recognize writeFileSync_error).
#[local] Abbreviation batch_lemma :=
  (processImages_batch toLowerCase extname path_join TARGET_KEYWORDS
                       readdirSync recognize writeFileSync_error).

(** X6.  When the directory cannot be listed the run prints its
    opening line and one [Fatal Error:] line with the error's message,
    completes normally and leaves the disk as it was. *)
Theorem processImages_listing_failure (e : JsError) (w : World) :
  readdirSync IMAGE_DIR = Throw e ->
  processImages' w =
  (Normal tt,
   mkWorld (console w
            ++ [LogLine [Text "Starting OCR process for images in: ./images"];
                ErrorLine [Text (newline ++ "Fatal Error:")] (message e)])
           (disk w)).
Proof.
  intros H.
  now rewrite (processImages_listing_fails toLowerCase extname path_join
                 TARGET_KEYWORDS readdirSync recognize writeFileSync_error
                 e w H).
Qed.

(** X7.  When the write of the report throws, every image has been
    processed and has its line, then one [Fatal Error:] line carries the
    error's message; no line of the summary is printed and the call
    completes normally.  (What the failed write leaves of the file is
    not stated.) *)
Theorem processImages_write_failure (files : list string) (e : JsError)
        (w : World) :
  readdirSync IMAGE_DIR = Normal files ->
  filter isSupportedImage' files <> [] ->
  let imageFiles := filter isSupportedImage' files in
  let numKeywords := List.length TARGET_KEYWORDS in
  writeFileSync_error
    OUTPUT_FILE (convertToCsv TARGET_KEYWORDS (resultsOf' imageFiles))
    = Some e ->
  exists added,
    fst (processImages' w) = Normal tt
    /\ console (snd (processImages' w)) = (console w ++ added)%list
    /\ added = (startLine :: foundLines (List.length imageFiles)
                  ++ map (lineOf' numKeywords) imageFiles
                  ++ [ErrorLine [Text (newline ++ "Fatal Error:")]
                                (message e)])%list
    /\ (forall n c m line,
           In line (summaryLines n c m) -> ~ In line added).
Proof.
  intros Hdir Hne imageFiles numKeywords Hw.
  pose proof (batch_lemma files w Hdir Hne) as Hrun.
  cbv zeta in Hrun. fold imageFiles in Hrun. rewrite Hw in Hrun.
  eexists. rewrite Hrun. cbn [fst snd console].
  split; [reflexivity|]. split; [|split; [reflexivity|]].
  - unfold fatalLine. rewrite <- app_assoc. reflexivity.
  - intros n c m line Hs Ha.
    destruct Ha as [<-|Ha].
    { unfold summaryLines, startLine in Hs. simpl in Hs.
      repeat (destruct Hs as [Hs|Hs]; [discriminate|]). exact Hs. }
    apply in_app_or in Ha as [Ha|Ha].
    { unfold foundLines in Ha. simpl in Ha.
      destruct Ha as [<-|[<-|[]]]; unfold summaryLines in Hs; simpl in Hs;
        repeat (destruct Hs as [Hs|Hs]; [discriminate|]); exact Hs. }
    apply in_app_or in Ha as [Ha|Ha].
    { apply in_map_iff in Ha as [f [<- _]].
      unfold lineOf in Hs. unfold summaryLines in Hs.
      destruct (outcome' f); simpl in Hs;
        repeat (destruct Hs as [Hs|Hs]; [discriminate|]); exact Hs. }
    destruct Ha as [<-|[]].
    unfold summaryLines in Hs. simpl in Hs.
    repeat (destruct Hs as [Hs|Hs]; [discriminate|]). exact Hs.
Qed.

(** Every run is the same change of the world: it appends lines that
    do not depend on the world, and either leaves the disk alone or
    sets the output file to a content that does not depend on it. *)
Lemma processImages_uniform :
  exists (added : list Line) (report : option string),
  forall w,
    processImages' w =
    (Normal tt,
     mkWorld (console w ++ added)
             (match report with
              | Some csvData => JsMap.set OUTPUT_FILE csvData (disk w)
              | None => disk w
              end)).
Proof.
  destruct (readdirSync IMAGE_DIR) as [files|e] eqn:Hdir.
  - destruct (filter isSupportedImage' files) as [|f fs] eqn:Hf.
    + exists [startLine; noImagesLine], None. intros w.
      apply (processImages_no_images toLowerCase extname path_join
               TARGET_KEYWORDS readdirSync recognize writeFileSync_error
               files w Hdir Hf).
    + assert (filter isSupportedImage' files <> []) as Hne
        by (rewrite Hf; discriminate).
      pose proof (fun w => batch_lemma files w Hdir Hne) as Hrun.
      cbv zeta in Hrun.
      destruct (writeFileSync_error OUTPUT_FILE _) as [e|] eqn:Hw.
      * eexists. exists None. intros w. rewrite Hrun.
        rewrite <- app_assoc. reflexivity.
      * eexists. eexists (Some _). intros w. rewrite Hrun.
        rewrite <- app_assoc. reflexivity.
  - exists [startLine; fatalLine e], None. intros w.
    apply (processImages_listing_fails toLowerCase extname path_join
             TARGET_KEYWORDS readdirSync recognize writeFileSync_error
             e w Hdir).
Qed.

(** X8.  Whatever the directory, the engine and the disk do, the call
    completes normally (no error leaves [processImages]), what was
    printed before stays printed, and no file other than the output
    file is created or changed. *)
Theorem processImages_never_throws (w : World) :
  fst (processImages' w) = Normal tt
  /\ (exists added,
         console (snd (processImages' w)) = (console w ++ added)%list)
  /\ (forall path,
         path <> OUTPUT_FILE ->
         JsMap.get path (disk (snd (processImages' w)))
         = JsMap.get path (disk w)).
Proof.
  destruct processImages_uniform as (added & report & Hrun).
  rewrite Hrun. cbn [fst snd console disk].
  split; [reflexivity|]. split; [now exists added|].
  intros path Hp. destruct report; [|reflexivity].
  now apply get_set_other.
Qed.

(** X9.  A second run over the same directory, engine and disk
    behaviour prints the same lines again and leaves the disk exactly
    as the first run left it: the report is overwritten, not
    appended to. *)
Theorem processImages_rerun (w : World) :
  let w1 := snd (processImages' w) in
  let w2 := snd (processImages' w1) in
  disk w2 = disk w1
  /\ exists added,
       console w1 = (console w ++ added)%list
       /\ console w2 = (console w1 ++ added)%list.
Proof.
  destruct processImages_uniform as (added & report & Hrun).
  cbv zeta. rewrite (Hrun w). cbn [snd]. rewrite Hrun.
  cbn [snd console disk]. split.
  - destruct report; [apply MapFacts.set_set | reflexivity].
  - now exists added.
Qed.

End OrchestratorExtras.

Section AverageFacts.

Local Open Scope nat_scope.

Lemma Qnat_le (m n : nat) : m <= n -> (Qnat m <= Qnat n)%Q.
Proof. intros H. unfold Qnat. rewrite <- Zle_Qle. lia. Qed.

Lemma Qnat_pos (n : nat) : 0 < n -> (0 < Qnat n)%Q.
Proof.
  intros H. unfold Qnat. change 0%Q with (inject_Z 0).
  rewrite <- Zlt_Qlt. lia.
Qed.

(** The average of a match count that does not exceed the number of
    checks is a percentage. *)
Lemma averageMatchPercentage_range (matches total : nat) :
  matches <= total ->
  (0 <= averageMatchPercentage matches total
   /\ averageMatchPercentage matches total <= 100)%Q.
Proof.
  intros Hle. unfold averageMatchPercentage.
  destruct (Nat.ltb_spec 0 total) as [Hpos|_].
  - pose proof (Qnat_pos total Hpos) as Ht.
    split.
    + apply Qmult_le_0_compat; [|discriminate].
      apply Qle_shift_div_l; [exact Ht|].
      rewrite Qmult_0_l. change 0%Q with (Qnat 0). apply Qnat_le. lia.
    + setoid_replace 100%Q with (1 * 100)%Q at 2 by ring.
      apply Qmult_le_compat_r; [|discriminate].
      apply Qle_shift_div_r; [exact Ht|].
      rewrite Qmult_1_l. now apply Qnat_le.
  - split; [apply Qle_refl | discriminate].
Qed.

End AverageFacts.

Section OrchestratorTotals.

Variable toLowerCase : string -> string.
Variable extname : string -> string.
Variable path_join : string -> string -> string.
Variable TARGET_KEYWORDS : list string.
Variable readdirSync : string -> Completion (list string).
Variable recognize : string -> Config -> Completion string.
Variable writeFileSync_error : string -> string -> option JsError.

#[local] Abbreviation resultOf' :=
  (resultOf toLowerCase path_join TARGET_KEYWORDS recognize).
#[local] Abbreviation resultsOf' :=
  (resultsOf toLowerCase path_join TARGET_KEYWORDS recognize).
#[local] Abbreviation lineOf' :=
  (lineOf toLowerCase path_join TARGET_KEYWORDS recognize).
#[local] Abbreviation outcome' := (outcome path_join recognize).
#[local] Abbreviation succeeded' := (succeeded path_join recognize).
#[local] Abbreviation textOf' := (textOf path_join recognize).
#[local] Abbreviation isSupportedImage' :=
  (isSupportedImage toLowerCase extname).
#[local] Abbreviation processImages' :=
  (processImages toLowerCase extname path_join TARGET_KEYWORDS
                 readdirSync recognize writeFileSync_error).
#[local] Abbreviation batch_lemma :=
  (processImages_batch toLowerCase extname path_join TARGET_KEYWORDS
                       readdirSync recognize writeFileSync_error).

Lemma matchesOf_resultsOf_le (files : list string) :
  matchesOf (resultsOf' files)
  <= List.length (resultsOf' files) * List.length (dedup TARGET_KEYWORDS).
Proof.
  pose proof (keywordStatus_resultsOf toLowerCase path_join TARGET_KEYWORDS
                recognize files) as Hres.
  unfold matchesOf.
  induction (resultsOf' files) as [|r rs IH]; simpl; [lia|].
  destruct (Hres r (or_introl eq_refl)) as [text ->].
  pose proof (foundCount_le_dedup TARGET_KEYWORDS toLowerCase text) as Hb.
  assert (list_sum (map (fun r => foundCount (keywordStatus r)) rs)
          <= List.length rs * List.length (dedup TARGET_KEYWORDS)).
  { apply IH. intros r' Hr'. apply Hres. now right. }
  lia.
Qed.

(** X10.  The matches a run counts never exceed the checks it reports:
    at most one per distinct keyword and read image, hence at most the
    number of image files times the number of keywords; the average it
    prints therefore lies between 0 and 100. *)
Theorem processImages_matches_bounded (files : list string) :
  let imageFiles := filter isSupportedImage' files in
  let results := resultsOf' imageFiles in
  let totalPossibleChecks :=
    List.length imageFiles * List.length TARGET_KEYWORDS in
  matchesOf results
    <= List.length results * List.length (dedup TARGET_KEYWORDS)
  /\ matchesOf results <= totalPossibleChecks
  /\ (0 <= averageMatchPercentage (matchesOf results) totalPossibleChecks)%Q
  /\ (averageMatchPercentage (matchesOf results) totalPossibleChecks
      <= 100)%Q.
Proof.
  intros imageFiles results totalPossibleChecks.
  pose proof (matchesOf_resultsOf_le imageFiles) as H1.
  fold results in H1.
  assert (matchesOf results <= totalPossibleChecks) as H2.
  { pose proof (length_resultsOf toLowerCase path_join TARGET_KEYWORDS
                  recognize imageFiles) as Hl.
    fold results in Hl.
    pose proof (length_dedup_le TARGET_KEYWORDS) as Hd.
    subst totalPossibleChecks. nia. }
  split; [exact H1|]. split; [exact H2|].
  apply averageMatchPercentage_range, H2.
Qed.

Lemma csvRow_resultsOf (files : list string) :
  map (csvRow TARGET_KEYWORDS) (resultsOf' files)
  = map (fun f => f ++ cellsOf (found toLowerCase (textOf' f)) TARGET_KEYWORDS)
        (filter succeeded' files).
Proof.
  unfold resultsOf, resultOf, succeeded, textOf.
  induction files as [|f files IH]; simpl; [reflexivity|].
  rewrite map_app, IH.
  destruct (outcome' f) as [text|e] eqn:E; simpl; [|reflexivity].
  rewrite csvRow_found_cells, E. reflexivity.
Qed.

Lemma resultsOf_nil_iff (files : list string) :
  resultsOf' files = [] <-> filter succeeded' files = [].
Proof.
  rewrite <- (fileName_resultsOf toLowerCase path_join TARGET_KEYWORDS
                recognize files).
  destruct (resultsOf' files); simpl; split; intros H;
    try reflexivity; discriminate.
Qed.

(** X11.  The report of a batch, line by line: when the write
    succeeds the output file holds the header line, then one line per
    image the engine read, in listing order, made of the file name and
    its cells; images the engine rejected and entries that are no
    images have no line.  (No newline in keywords or entry names.) *)
Theorem processImages_report_lines (files : list string) (w : World) :
  readdirSync IMAGE_DIR = Normal files ->
  filter isSupportedImage' files <> [] ->
  (forall k, In k TARGET_KEYWORDS -> JsString.hasChar lf k = false) ->
  (forall f, In f files -> JsString.hasChar lf f = false) ->
  let imageFiles := filter isSupportedImage' files in
  writeFileSync_error
    OUTPUT_FILE (convertToCsv TARGET_KEYWORDS (resultsOf' imageFiles))
    = None ->
  exists csvData,
    JsMap.get OUTPUT_FILE (disk (snd (processImages' w))) = Some csvData
    /\ JsString.split lf csvData
       = headerLine TARGET_KEYWORDS ::
           match filter succeeded' imageFiles with
           | [] => [""]
           | read =>
               map (fun f =>
                      f ++ cellsOf (found toLowerCase (textOf' f))
                                   TARGET_KEYWORDS)
                   read
           end.
Proof.
  intros Hdir Hne Hk Hf imageFiles Hw.
  pose proof (batch_lemma files w Hdir Hne) as Hrun.
  cbv zeta in Hrun. fold imageFiles in Hrun. rewrite Hw in Hrun.
  rewrite Hrun. cbn [snd disk].
  eexists. split; [apply MapFacts.get_set_same|].
  rewrite lines_convertToCsv.
  - f_equal. rewrite csvRow_resultsOf.
    destruct (resultsOf' imageFiles) eqn:Er.
    + apply resultsOf_nil_iff in Er. now rewrite Er.
    + destruct (filter succeeded' imageFiles) eqn:Es; [|reflexivity].
      apply resultsOf_nil_iff in Es. congruence.
  - exact Hk.
  - intros r Hr.
    assert (In (fileName r) (map fileName (resultsOf' imageFiles))) as Hin
      by now apply in_map.
    rewrite (fileName_resultsOf toLowerCase path_join TARGET_KEYWORDS
               recognize) in Hin.
    apply filter_In in Hin as [Hin _].
    apply filter_In in Hin as [Hin _]. now apply Hf.
Qed.

(** X12.  When the engine rejects every image the report is still
    written, as the header line alone, and the summary counts every
    image as processed and no match. *)
Theorem processImages_all_rejected (files : list string) (w : World) :
  readdirSync IMAGE_DIR = Normal files ->
  filter isSupportedImage' files <> [] ->
  let imageFiles := filter isSupportedImage' files in
  (forall f, In f imageFiles -> succeeded' f = false) ->
  writeFileSync_error
    OUTPUT_FILE (headerLine TARGET_KEYWORDS ++ newline) = None ->
  JsMap.get OUTPUT_FILE (disk (snd (processImages' w)))
    = Some (headerLine TARGET_KEYWORDS ++ newline)
  /\ In (LogLine [Text "Total Images Processed: ";
                  Num (List.length imageFiles)])
        (console (snd (processImages' w)))
  /\ In (LogLine [Text "Total Successful Matches: "; Num 0])
        (console (snd (processImages' w)))
  /\ exists average,
       In (LogLine [Text "Average Match Percentage: **"; Fixed2 average;
                    Text "%**"])
          (console (snd (processImages' w)))
       /\ (average == 0)%Q.
Proof.
  intros Hdir Hne imageFiles Hrej Hw.
  assert (resultsOf' imageFiles = []) as Hres.
  { apply resultsOf_nil_iff.
    clear Hw Hne. induction imageFiles as [|f l IH]; [reflexivity|].
    simpl. rewrite (Hrej f) by now left.
    apply IH. intros g Hg. apply Hrej. now right. }
  pose proof (batch_lemma files w Hdir Hne) as Hrun.
  cbv zeta in Hrun. fold imageFiles in Hrun.
  rewrite Hres in Hrun.
  assert (convertToCsv TARGET_KEYWORDS []
          = headerLine TARGET_KEYWORDS ++ newline) as Hcsv.
  { unfold convertToCsv, headerLine. cbn [map JsString.join].
    now rewrite StringFacts.append_empty_r, StringFacts.append_assoc. }
  rewrite Hcsv, Hw in Hrun. rewrite Hrun. cbn [snd disk console].
  split; [apply MapFacts.get_set_same|].
  assert (averageMatchPercentage
            0 (List.length imageFiles * List.length TARGET_KEYWORDS) == 0)%Q
    as Havg.
  { unfold averageMatchPercentage.
    destruct (0 <? _)%nat; [|reflexivity].
    change (Qnat 0) with 0%Q. unfold Qdiv. ring. }
  unfold matchesOf, summaryLines. simpl list_sum.
  split; [apply in_or_app; right; simpl; tauto|].
  split; [apply in_or_app; right; simpl; tauto|].
  eexists. split; [|exact Havg].
  apply in_or_app; right; simpl; tauto.
Qed.

(** X13.  Each image has at most one line in the report, and every
    line is for a listed entry that is a supported image and that the
    engine read: when the listing has no repeated entry, the file
    names of the results have none either. *)
Theorem resultsOf_names (files : list string) :
  NoDup files ->
  let results :=
    resultsOf toLowerCase path_join TARGET_KEYWORDS recognize
              (filter (isSupportedImage toLowerCase extname) files) in
  NoDup (map fileName results)
  /\ forall r, In r results ->
               In (fileName r) files
               /\ isSupportedImage' (fileName r) = true
               /\ succeeded' (fileName r) = true.
Proof.
  intros Hnd results. subst results.
  rewrite (fileName_resultsOf toLowerCase path_join TARGET_KEYWORDS
             recognize).
  split.
  - now do 2 apply DedupFacts.NoDup_filter.
  - intros r Hr.
    assert (In (fileName r)
               (map fileName (resultsOf' (filter isSupportedImage' files))))
      as Hin by now apply in_map.
    rewrite (fileName_resultsOf toLowerCase path_join TARGET_KEYWORDS
               recognize) in Hin.
    apply filter_In in Hin as [Hin Hs].
    apply filter_In in Hin as [Hin Hi]. auto.
Qed.

End OrchestratorTotals.

Section EngineCalls.

Variable toLowerCase : string -> string.
Variable extname : string -> string.
Variable path_join : string -> string -> string.
Variable TARGET_KEYWORDS : list string.
Variable readdirSync : string -> Completion (list string).
Variable writeFileSync_error : string -> string -> option JsError.

Lemma resultsOf_agree
      (recognize1 recognize2 : string -> Config -> Completion string)
      (numKeywords : nat) (l : list string) :
  (forall f, In f l ->
             recognize1 (path_join IMAGE_DIR f) config
             = recognize2 (path_join IMAGE_DIR f) config) ->
  resultsOf toLowerCase path_join TARGET_KEYWORDS recognize1 l
  = resultsOf toLowerCase path_join TARGET_KEYWORDS recognize2 l
  /\ map (lineOf toLowerCase path_join TARGET_KEYWORDS recognize1 numKeywords) l
     = map (lineOf toLowerCase path_join TARGET_KEYWORDS recognize2 numKeywords)
           l.
Proof.
  induction l as [|f l IH]; intros H; [split; reflexivity|].
  destruct IH as [IH1 IH2]; [intros g Hg; apply H; now right|].
  assert (recognize1 (path_join IMAGE_DIR f) config
          = recognize2 (path_join IMAGE_DIR f) config) as Hf
    by (apply H; now left).
  unfold resultsOf in *. simpl. rewrite IH1, IH2.
  unfold resultOf, lineOf, outcome. rewrite Hf. split; reflexivity.
Qed.

(** X14.  The engine is asked about the supported images only, and
    always with the fixed configuration: two engines that agree on
    those calls give the same run, whatever they would answer for any
    other entry or configuration. *)
Theorem processImages_engine_calls
        (recognize1 recognize2 : string -> Config -> Completion string)
        (files : list string) (w : World) :
  readdirSync IMAGE_DIR = Normal files ->
  (forall f, In f files ->
             isSupportedImage toLowerCase extname f = true ->
             recognize1 (path_join IMAGE_DIR f) config
             = recognize2 (path_join IMAGE_DIR f) config) ->
  processImages toLowerCase extname path_join TARGET_KEYWORDS
                readdirSync recognize1 writeFileSync_error w
  = processImages toLowerCase extname path_join TARGET_KEYWORDS
                  readdirSync recognize2 writeFileSync_error w.
Proof.
  intros Hdir Hsame.
  destruct (filter (isSupportedImage toLowerCase extname) files)
    as [|f0 fs] eqn:Hf.
  - rewrite !(processImages_no_images _ _ _ _ _ _ _ files w Hdir Hf).
    reflexivity.
  - assert (filter (isSupportedImage toLowerCase extname) files <> [])
      as Hne by (rewrite Hf; discriminate).
    rewrite !(processImages_batch _ _ _ _ _ _ _ files w Hdir Hne).
    cbv zeta.
    destruct (resultsOf_agree
                recognize1 recognize2 (List.length TARGET_KEYWORDS)
                (filter (isSupportedImage toLowerCase extname) files))
      as [Hr Hl].
    { intros f Hin. apply filter_In in Hin as [Hin Hs]. now apply Hsame. }
    rewrite Hr, Hl. reflexivity.
Qed.

(** X15.  With an empty keyword list every result carries an empty
    status map, the report is [Case,] and then the bare names of the
    images read, no match is counted and the average is 0. *)
Theorem processImages_no_keywords
        (recognize : string -> Config -> Completion string)
        (files : list string) :
  let results := resultsOf toLowerCase path_join [] recognize files in
  let read := filter (succeeded path_join recognize) files in
  results = map (fun f => mkImageResult f []) read
  /\ convertToCsv [] results
     = "Case," ++ newline ++ JsString.join newline read
  /\ matchesOf results = 0
  /\ averageMatchPercentage (matchesOf results) (List.length files * 0)
     = 0%Q.
Proof.
  intros results read.
  assert (results = map (fun f => mkImageResult f []) read) as Hres.
  { subst results read. unfold resultsOf, resultOf, succeeded.
    induction files as [|f l IH]; simpl; [reflexivity|].
    rewrite IH. destruct (outcome path_join recognize f); reflexivity. }
  assert (matchesOf results = 0) as Hm.
  { rewrite Hres. unfold matchesOf. rewrite map_map. simpl.
    generalize read as l. intros l.
    induction l as [|a l IH]; simpl; [reflexivity | exact IH]. }
  split; [exact Hres|]. split; [|split; [exact Hm|]].
  - rewrite Hres. unfold convertToCsv. cbv zeta. rewrite map_map.
    cbn [JsString.join csvRow fold_left fileName].
    rewrite map_id. reflexivity.
  - rewrite Nat.mul_0_r. reflexivity.
Qed.

End EngineCalls.

(* ------------------------------------------------------------------ *)
(** ** The further properties on the sample runs *)

Lemma processImages_listing_failure_witness :
  processImages JsString.asciiLower entryExtname entryJoin
                TARGET_KEYWORDS_shipped sample_listing_fails sample_recognize
                sample_write_ok world0
  = (Normal tt,
     mkWorld
       [LogLine [Text "Starting OCR process for images in: ./images"];
        ErrorLine [Text (newline ++ "Fatal Error:")]
                  "ENOENT: no such file or directory, scandir './images'"]
       []).
Proof.
  apply (processImages_listing_failure
           JsString.asciiLower entryExtname entryJoin TARGET_KEYWORDS_shipped
           sample_listing_fails sample_recognize sample_write_ok
           (mkError "ENOENT: no such file or directory, scandir './images'")
           world0 eq_refl).
Defined.

Lemma processImages_write_failure_witness :
  exists added,
    console (snd (processImages JsString.asciiLower entryExtname entryJoin
                                TARGET_KEYWORDS_shipped sample_readdirSync
                                sample_recognize sample_write_fails world0))
    = added
    /\ ~ In (LogLine [Text "OCR Processing Summary"]) added.
Proof.
  assert (filter (isSupportedImage JsString.asciiLower entryExtname)
                 sample_listing <> []) as Hne
    by (vm_compute; discriminate).
  destruct (processImages_write_failure
              JsString.asciiLower entryExtname entryJoin TARGET_KEYWORDS_shipped
              sample_readdirSync sample_recognize sample_write_fails
              sample_listing
              (mkError "EACCES: permission denied, open 'results.csv'")
              world0 eq_refl Hne eq_refl)
    as (added & _ & Hrun & _ & Hnone).
  exists added. split; [exact Hrun|].
  apply (Hnone 0 0 0). right; left; reflexivity.
Defined.

Lemma processImages_report_lines_witness :
  exists csvData,
    JsMap.get "results.csv"
      (disk (snd (processImages JsString.asciiLower entryExtname entryJoin
                                TARGET_KEYWORDS_shipped sample_readdirSync
                                sample_recognize sample_write_ok world0)))
    = Some csvData
    /\ JsString.split lf csvData
       = ["Case,Selamat"; "a.PNG,found"; "c.tif,not found"].
Proof.
  assert (filter (isSupportedImage JsString.asciiLower entryExtname)
                 sample_listing <> []) as Hne
    by (vm_compute; discriminate).
  destruct (processImages_report_lines
              JsString.asciiLower entryExtname entryJoin TARGET_KEYWORDS_shipped
              sample_readdirSync sample_recognize sample_write_ok
              sample_listing world0 eq_refl Hne)
    as (csvData & Hget & Hlines).
  - intros k [<-|[]]. reflexivity.
  - intros f [<-|[<-|[<-|[<-|[]]]]]; reflexivity.
  - reflexivity.
  - exists csvData. split; [exact Hget | exact Hlines].
Defined.

Lemma processImages_all_rejected_witness :
  JsMap.get "results.csv"
    (disk (snd (processImages JsString.asciiLower entryExtname entryJoin
                              TARGET_KEYWORDS_shipped sample_readdirSync
                              sample_reject_all sample_write_ok world0)))
  = Some ("Case,Selamat" ++ newline).
Proof.
  assert (filter (isSupportedImage JsString.asciiLower entryExtname)
                 sample_listing <> []) as Hne
    by (vm_compute; discriminate).
  assert (forall f,
             In f (filter (isSupportedImage JsString.asciiLower entryExtname)
                          sample_listing) ->
             succeeded entryJoin sample_reject_all f = false) as Hrej
    by (intros f _; reflexivity).
  destruct (processImages_all_rejected
              JsString.asciiLower entryExtname entryJoin TARGET_KEYWORDS_shipped
              sample_readdirSync sample_reject_all sample_write_ok
              sample_listing world0 eq_refl Hne Hrej eq_refl)
    as [Hfile _].
  exact Hfile.
Defined.

Lemma resultsOf_names_witness :
  NoDup sample_listing /\
  NoDup (map fileName
             (resultsOf JsString.asciiLower entryJoin TARGET_KEYWORDS_shipped
                        sample_recognize
                        (filter (isSupportedImage JsString.asciiLower
                                                  entryExtname)
                                sample_listing))).
Proof.
  assert (NoDup sample_listing) as Hnd.
  { unfold sample_listing.
    repeat (constructor;
            [simpl; intros H;
             repeat (destruct H as [H|H]; [discriminate|]); exact H|]).
    constructor. }
  split; [exact Hnd|].
  apply (resultsOf_names JsString.asciiLower entryExtname entryJoin
           TARGET_KEYWORDS_shipped sample_recognize sample_listing Hnd).
Defined.

Lemma processImages_engine_calls_witness :
  processImages JsString.asciiLower entryExtname entryJoin
                TARGET_KEYWORDS_shipped sample_readdirSync sample_recognize
                sample_write_ok world0
  = processImages JsString.asciiLower entryExtname entryJoin
                  TARGET_KEYWORDS_shipped sample_readdirSync
                  sample_recognize_notes sample_write_ok world0.
Proof.
  apply (processImages_engine_calls
           JsString.asciiLower entryExtname entryJoin TARGET_KEYWORDS_shipped
           sample_readdirSync sample_write_ok
           sample_recognize sample_recognize_notes sample_listing world0
           eq_refl).
  intros f [<-|[<-|[<-|[<-|[]]]]] Hs;
    try reflexivity; vm_compute in Hs; discriminate.
Defined.

(* ------------------------------------------------------------------ *)
(** ** The average in the script's arithmetic: claim C3 *)





Section AverageClaim.

Variable toLowerCase : string -> string.
Variable extname : string -> string.
Variable path_join : string -> string -> string.
Variable TARGET_KEYWORDS : list string.
Variable readdirSync : string -> Completion (list string).
Variable recognize : string -> Config -> Completion string.
Variable writeFileSync_error : string -> string -> option JsError.

#[local] Abbreviation resultsOf' :=
  (resultsOf toLowerCase path_join TARGET_KEYWORDS recognize).
#[local] Abbreviation succeeded' := (succeeded path_join recognize).
#[local] Abbreviation isSupportedImage' :=
  (isSupportedImage toLowerCase extname).
#[local] Abbreviation processImages' :=
  (processImages toLowerCase extname path_join TARGET_KEYWORDS
                 readdirSync recognize writeFileSync_error).


End AverageClaim.



(* ------------------------------------------------------------------ *)
(** ** The trailing newline of the report: claim C9 *)

Lemma lastDotSuffix_suffix (s e : string) :
  lastDotSuffix s = Some e -> exists pre, s = pre ++ e.
Proof.
  revert e. induction s as [|c s IH]; intros e; simpl; [discriminate|].
  destruct (lastDotSuffix s) as [e'|].
  - intros [= <-]. destruct (IH e' eq_refl) as [pre ->].
    now exists (String c pre).
  - destruct (Ascii.eqb c "."%char); [|discriminate].
    intros [= <-]. now exists "".
Qed.

(** [entryExtname] returns a suffix of the name. *)
Lemma entryExtname_suffix (f : string) : exists pre, f = pre ++ entryExtname f.
Proof.
  destruct f as [|c s]; [now exists ""|].
  unfold entryExtname.
  destruct (String.eqb (String c s) "..").
  - exists (String c s). now rewrite StringFacts.append_empty_r.
  - destruct (lastDotSuffix s) as [e|] eqn:E.
    + destruct (lastDotSuffix_suffix s e E) as [pre ->].
      now exists (String c pre).
    + exists (String c s). now rewrite StringFacts.append_empty_r.
Qed.

Lemma lowerChar_lf (c : ascii) :
  Ascii.eqb (JsString.lowerChar c) lf = Ascii.eqb c lf.
Proof.
  destruct c as [[|] [|] [|] [|] [|] [|] [|] [|]]; reflexivity.
Qed.

Lemma endsWithChar_asciiLower (s : string) :
  JsString.endsWithChar lf (JsString.asciiLower s) = JsString.endsWithChar lf s.
Proof.
  induction s as [|c s IH]; [reflexivity|].
  cbn [JsString.asciiLower JsString.endsWithChar].
  destruct s as [|d s]; [apply lowerChar_lf | exact IH].
Qed.

(** Only a name that is not empty and does not end in a newline
    lower-cases to a supported extension. *)
Lemma asciiLower_supported (s : string) :
  In (JsString.asciiLower s) SUPPORTED_EXTENSIONS ->
  s <> "" /\ JsString.endsWithChar lf s = false.
Proof.
  intros H. split.
  - intros ->. simpl in H.
    repeat (destruct H as [H|H]; [discriminate|]). exact H.
  - rewrite <- endsWithChar_asciiLower. simpl in H.
    repeat (destruct H as [<-|H]; [reflexivity|]). contradiction.
Qed.

Section NewlineClaim.
Import JsString.

Variable toLowerCase : string -> string.
Variable extname : string -> string.
Variable path_join : string -> string -> string.
Variable recognize : string -> Config -> Completion string.

Hypothesis extname_suffix : forall f, exists pre, f = pre ++ extname f.
Hypothesis supported_extension :
  forall s, In (toLowerCase s) SUPPORTED_EXTENSIONS ->
            s <> "" /\ endsWithChar lf s = false.

(** The name of a supported image is not empty and does not end in a
    newline. *)
Lemma supported_name (f : string) :
  isSupportedImage toLowerCase extname f = true ->
  f <> "" /\ endsWithChar lf f = false.
Proof.
  intros H. apply isSupportedImage_In in H.
  destruct (supported_extension _ H) as [Hne Hend].
  destruct (extname_suffix f) as [pre Hf].
  split.
  - intros ->. destruct pre; simpl in Hf; [|discriminate].
    now apply Hne.
  - rewrite Hf. now rewrite SplitFacts.endsWithChar_app.
Qed.

(** C9.  The serialized CSV ends in a newline if and only if the
    result list is empty: for the results of every run, whatever the
    keyword list (the names of supported images are not empty and do
    not end in a newline: [extname] returns a suffix of the name, and
    only such a string lower-cases to a supported extension); for every
    result list under the shipped keywords, and under any keyword list
    that is not empty; and so for the report a run writes. *)
Theorem convertToCsv_newline_iff_no_results :
  (forall TARGET_KEYWORDS files,
      let results :=
        resultsOf toLowerCase path_join TARGET_KEYWORDS recognize
                  (filter (isSupportedImage toLowerCase extname) files) in
      endsWithChar lf (convertToCsv TARGET_KEYWORDS results) = true
      <-> results = [])
  /\ (forall results,
         endsWithChar lf (convertToCsv TARGET_KEYWORDS_shipped results) = true
         <-> results = [])
  /\ (forall TARGET_KEYWORDS results,
         TARGET_KEYWORDS <> [] ->
         (endsWithChar lf (convertToCsv TARGET_KEYWORDS results) = true
          <-> results = []))
  /\ (forall TARGET_KEYWORDS readdirSync writeFileSync_error files w,
         readdirSync IMAGE_DIR = Normal files ->
         filter (isSupportedImage toLowerCase extname) files <> [] ->
         let results :=
           resultsOf toLowerCase path_join TARGET_KEYWORDS recognize
                     (filter (isSupportedImage toLowerCase extname) files) in
         writeFileSync_error
           OUTPUT_FILE (convertToCsv TARGET_KEYWORDS results) = None ->
         exists csvData,
           JsMap.get OUTPUT_FILE
             (disk (snd (processImages toLowerCase extname path_join
                                       TARGET_KEYWORDS readdirSync recognize
                                       writeFileSync_error w)))
           = Some csvData
           /\ (endsWithChar lf csvData = true <-> results = [])).
Proof.
  assert (forall TARGET_KEYWORDS files,
             let results :=
               resultsOf toLowerCase path_join TARGET_KEYWORDS recognize
                         (filter (isSupportedImage toLowerCase extname) files)
             in
             endsWithChar lf (convertToCsv TARGET_KEYWORDS results) = true
             <-> results = []) as Hrun.
  { intros KW files results.
    apply convertToCsv_trailing_newline. right.
    intros pre r Hr.
    assert (In (fileName r) (map fileName results)) as Hin.
    { apply in_map. rewrite Hr. apply in_or_app. right. now left. }
    subst results.
    rewrite (fileName_resultsOf toLowerCase path_join KW recognize) in Hin.
    apply filter_In in Hin as [Hin _].
    apply filter_In in Hin as [_ Hs].
    now apply supported_name. }
  split; [exact Hrun|]. split; [|split].
  - intros results. apply convertToCsv_trailing_newline.
    left. discriminate.
  - intros KW results Hne. apply convertToCsv_trailing_newline. now left.
  - intros KW readdirSync writeFileSync_error files w Hdir Hne results Hw.
    pose proof (processImages_batch toLowerCase extname path_join KW
                  readdirSync recognize writeFileSync_error
                  files w Hdir Hne) as Hbatch.
    cbv zeta in Hbatch. fold results in Hbatch. rewrite Hw in Hbatch.
    rewrite Hbatch. cbn [snd disk].
    eexists. split; [apply MapFacts.get_set_same|].
    apply Hrun.
Qed.

End NewlineClaim.

(** The sample run with no keyword at all: the report is [Case,] and the
    two names, and does not end in a newline. *)
Lemma convertToCsv_newline_iff_no_results_witness :
  let results :=
    resultsOf JsString.asciiLower entryJoin [] sample_recognize
              (filter (isSupportedImage JsString.asciiLower entryExtname)
                      sample_listing) in
  JsString.endsWithChar lf (convertToCsv [] results) = true <-> results = [].
Proof.
  destruct (convertToCsv_newline_iff_no_results
              JsString.asciiLower entryExtname entryJoin sample_recognize
              entryExtname_suffix asciiLower_supported)
    as [Hrun _].
  exact (Hrun [] sample_listing).
Defined.
